(** * Ledger core of the blockchain-network project: a shallow embedding

    The development follows the JavaScript sources of the back end:
    the crypto helpers ([hashSHA256]), the [Transaction] class, the
    [MerkleTree] class, the [Block] class, the [Blockchain] class and the
    database-backed [BlockchainService].

    JavaScript strings are modelled by their UTF-8 bytes ([string]),
    JavaScript numbers by [Z] (the integers, printed in plain decimal as
    [String(n)] prints every integer below 10^21) and, where amounts are
    added up into balances, by the binary64 floats that they are, exceptions
    by the [result] type. *)

From Corelib Require PrimFloat.
From Stdlib Require Import ZArith List String Ascii Bool Lia DecimalString.
Import ListNotations.
Local Open Scope string_scope.
Local Open Scope Z_scope.

(** ** SHA-256 (FIPS 180-4), the digest behind [crypto.createHash("sha256")]
       and behind [crypto-js/sha256] *)

Module SHA256.

Definition mask32 (x : Z) : Z := Z.land x 4294967295.
Definition add32 (x y : Z) : Z := mask32 (x + y).
Definition rotr (n x : Z) : Z :=
  Z.lor (Z.shiftr x n) (mask32 (Z.shiftl x (32 - n))).
Definition shr (n x : Z) : Z := Z.shiftr x n.

Definition Ch (x y z : Z) : Z :=
  Z.lxor (Z.land x y) (Z.land (Z.lxor x 4294967295) z).
Definition Maj (x y z : Z) : Z :=
  Z.lxor (Z.lxor (Z.land x y) (Z.land x z)) (Z.land y z).
Definition Sigma0 (x : Z) : Z :=
  Z.lxor (Z.lxor (rotr 2 x) (rotr 13 x)) (rotr 22 x).
Definition Sigma1 (x : Z) : Z :=
  Z.lxor (Z.lxor (rotr 6 x) (rotr 11 x)) (rotr 25 x).
Definition sigma0 (x : Z) : Z :=
  Z.lxor (Z.lxor (rotr 7 x) (rotr 18 x)) (shr 3 x).
Definition sigma1 (x : Z) : Z :=
  Z.lxor (Z.lxor (rotr 17 x) (rotr 19 x)) (shr 10 x).

(** The round constants are the first 32 bits of the fractional parts of
    the cube roots of the first 64 primes, the initial hash value those of
    the square roots of the first 8. *)
Definition is_prime (n : Z) : bool :=
forallb (fun d => negb (n mod Z.of_nat d =? 0)) (seq 2 (Z.to_nat n - 2)).

Definition primes : list Z :=
filter is_prime (map Z.of_nat (seq 2 310)).

(** The integer cube root of [n], found one bit at a time from bit [k - 1]
    down. *)
Fixpoint cube_root (k : nat) (n r : Z) : Z :=
match k with
| O => r
| S k' =>
    let c := r + Z.shiftl 1 (Z.of_nat k') in
    cube_root k' n (if c * c * c <=? n then c else r)
end.

Definition K : list Z :=
Eval vm_compute in
  map (fun p => mask32 (cube_root 40 (Z.shiftl p 96) 0)) primes.

Definition H0 : list Z :=
Eval vm_compute in
  map (fun p => mask32 (Z.sqrt (Z.shiftl p 64))) (firstn 8 primes).

Fixpoint bytes_of_string (s : string) : list Z :=
  match s with
  | EmptyString => []
  | String c s' => Z.of_N (N_of_ascii c) :: bytes_of_string s'
  end.

(** Big-endian bytes of [x], [n] of them. *)
Fixpoint be_bytes (n : nat) (x : Z) : list Z :=
  match n with
  | O => []
  | S n' => be_bytes n' (Z.shiftr x 8) ++ [Z.land x 255]
  end.

(** Message, the byte 0x80, zero bytes up to 56 modulo 64, then the bit
    length on eight bytes. *)
Definition pad (msg : list Z) : list Z :=
  let len := Z.of_nat (List.length msg) in
  let zeros := Z.to_nat ((55 - len) mod 64) in
  msg ++ [128] ++ repeat 0 zeros ++ be_bytes 8 (8 * len).

Fixpoint words_of_bytes (fuel : nat) (bs : list Z) : list Z :=
  match fuel, bs with
  | S fuel', b0 :: b1 :: b2 :: b3 :: rest =>
      (Z.shiftl b0 24 + Z.shiftl b1 16 + Z.shiftl b2 8 + b3)
        :: words_of_bytes fuel' rest
  | _, _ => []
  end.

(** The message schedule, most recent word first. *)
Fixpoint extend (n : nat) (rev_w : list Z) : list Z :=
  match n with
  | O => rev_w
  | S n' =>
      let w := add32 (add32 (sigma1 (nth 1 rev_w 0)) (nth 6 rev_w 0))
                     (add32 (sigma0 (nth 14 rev_w 0)) (nth 15 rev_w 0)) in
      extend n' (w :: rev_w)
  end.

Definition schedule (block : list Z) : list Z :=
  rev (extend 48 (rev block)).

Record regs := Regs { ra : Z; rb : Z; rc : Z; rd : Z;
                      re : Z; rf : Z; rg : Z; rh : Z }.

Definition round (r : regs) (kw : Z * Z) : regs :=
  let t1 := add32 (add32 (add32 (rh r) (Sigma1 (re r)))
                         (add32 (Ch (re r) (rf r) (rg r)) (fst kw)))
                  (snd kw) in
  let t2 := add32 (Sigma0 (ra r)) (Maj (ra r) (rb r) (rc r)) in
  Regs (add32 t1 t2) (ra r) (rb r) (rc r) (add32 (rd r) t1) (re r) (rf r) (rg r).

Definition regs_of (h : list Z) : regs :=
  Regs (nth 0 h 0) (nth 1 h 0) (nth 2 h 0) (nth 3 h 0)
       (nth 4 h 0) (nth 5 h 0) (nth 6 h 0) (nth 7 h 0).

Definition compress (h : list Z) (block : list Z) : list Z :=
  let r := fold_left round (combine K (schedule block)) (regs_of h) in
  [ add32 (nth 0 h 0) (ra r); add32 (nth 1 h 0) (rb r);
    add32 (nth 2 h 0) (rc r); add32 (nth 3 h 0) (rd r);
    add32 (nth 4 h 0) (re r); add32 (nth 5 h 0) (rf r);
    add32 (nth 6 h 0) (rg r); add32 (nth 7 h 0) (rh r) ].

Fixpoint blocks (fuel : nat) (h : list Z) (ws : list Z) : list Z :=
  match fuel, ws with
  | S fuel', _ :: _ => blocks fuel' (compress h (firstn 16 ws)) (skipn 16 ws)
  | _, _ => h
  end.

Definition hex_digit (d : Z) : ascii :=
  if d <? 10 then ascii_of_N (Z.to_N (48 + d)) else ascii_of_N (Z.to_N (87 + d)).

Fixpoint hex_of_bytes (bs : list Z) : string :=
  match bs with
  | [] => EmptyString
  | b :: rest =>
      String (hex_digit (Z.shiftr b 4))
             (String (hex_digit (Z.land b 15)) (hex_of_bytes rest))
  end.

Definition digest_words (s : string) : list Z :=
  let bs := pad (bytes_of_string s) in
  let ws := words_of_bytes (List.length bs) bs in
  blocks (List.length ws) H0 ws.

(** The digest in lower-case hexadecimal, as [.digest("hex")] gives it. *)
Definition hex (s : string) : string :=
  hex_of_bytes (flat_map (be_bytes 4) (digest_words s)).

End SHA256.

(** ** Exceptions and JavaScript primitives *)

Inductive exn : Type :=
| Error (msg : string)   (* [throw new Error(msg)] *)
| TypeError              (* a property read on [undefined], a call of a non-function *)
| RangeError.            (* the call stack is exhausted, an array length is refused *)

Inductive result (A : Type) : Type :=
| Ok (a : A)
| Throw (e : exn).
Arguments Ok {A} a.
Arguments Throw {A} e.

Definition bind {A B : Type} (c : result A) (k : A -> result B) : result B :=
  match c with
  | Ok a => k a
  | Throw e => Throw e
  end.

Notation "x <- c ;; k" := (bind c (fun x => k))
  (at level 61, c at next level, right associativity).

(** [xs.map(f)] for an [f] that may throw: the first exception wins. *)
Fixpoint mapM {A B : Type} (f : A -> result B) (xs : list A) : result (list B) :=
  match xs with
  | [] => Ok []
  | x :: xs' => y <- f x ;; ys <- mapM f xs' ;; Ok (y :: ys)
  end.

Module JS.

Definition dquote : string := String (ascii_of_nat 34) EmptyString.
Definition backslash : string := String (ascii_of_nat 92) EmptyString.
Definition newline : string := String (ascii_of_nat 10) EmptyString.

(** [String(n)] for an integer [n]. *)
Definition string_of_Z (z : Z) : string := NilZero.string_of_int (Z.to_int z).

(** [`${x}`] for [x] a string or [null]. *)
Definition tpl_opt (o : option string) : string :=
  match o with
  | None => "null"
  | Some s => s
  end.

(** [!x] for [x] a string or [null]: [null] and the empty string are falsy. *)
Definition falsy (o : option string) : bool :=
  match o with
  | None => true
  | Some s => (s =? EmptyString)%string
  end.

(** [x || d] for [x] a string or [null]. *)
Definition or_else (o : option string) (d : string) : string :=
  match o with
  | None => d
  | Some s => if (s =? EmptyString)%string then d else s
  end.

Fixpoint join (sep : string) (xs : list string) : string :=
  match xs with
  | [] => EmptyString
  | [x] => x
  | x :: xs' => x ++ sep ++ join sep xs'
  end.

(** The lengths that [Array(n)] accepts. *)
Definition array_length_ok (n : Z) : bool := (0 <=? n) && (n <=? 4294967295).

(** [Array(n + 1).join("0")] *)
Fixpoint zeros (n : nat) : string :=
  match n with
  | O => EmptyString
  | S n' => String "0" (zeros n')
  end.

(** Escapes of [JSON.stringify] inside a string. *)
Definition json_escape_char (c : ascii) : string :=
  let n := nat_of_ascii c in
  if (n =? 34)%nat then backslash ++ dquote
  else if (n =? 92)%nat then backslash ++ backslash
  else if (n =? 8)%nat then backslash ++ "b"
  else if (n =? 9)%nat then backslash ++ "t"
  else if (n =? 10)%nat then backslash ++ "n"
  else if (n =? 12)%nat then backslash ++ "f"
  else if (n =? 13)%nat then backslash ++ "r"
  else if (n <? 32)%nat then
    backslash ++ "u00" ++ SHA256.hex_of_bytes [Z.of_nat n]
  else String c EmptyString.

Fixpoint json_escape (s : string) : string :=
  match s with
  | EmptyString => EmptyString
  | String c s' => json_escape_char c ++ json_escape s'
  end.

(** [JSON.stringify(s)] for a string [s]. *)
Definition json_string (s : string) : string := dquote ++ json_escape s ++ dquote.

(** [JSON.stringify(x)] for [x] a string or [null]. *)
Definition json_opt (o : option string) : string :=
  match o with
  | None => "null"
  | Some s => json_string s
  end.

Definition json_field (key value : string) : string :=
  json_string key ++ ":" ++ value.

End JS.

(** ** lib/crypto *)

Module Crypto.

(** [hashSHA256(data)]: refuses falsy data, otherwise the hexadecimal
    SHA-256 digest.  (A second copy of the helper refuses what is not a
    string instead, and so accepts the empty string; on every other string
    the two agree.) *)
Definition hashSHA256 (data : string) : result string :=
  if (data =? EmptyString)%string then Throw (Error "Data is required for hashing")
  else Ok (SHA256.hex data).

Section Verify.
(** Node's [crypto.createVerify("SHA256").update(data).verify(publicKey,
    signature, "hex")], which lives outside the repository. *)
Variable rsa_verify : string -> string -> string -> result bool.

(** [verifySignature(data, publicKey, signature)] *)
Definition verifySignature (data publicKey signature : string) : result bool :=
  if (data =? EmptyString)%string || (publicKey =? EmptyString)%string
     || (signature =? EmptyString)%string
  then Throw (Error "Data, publicKey, and signature are required for verification")
  else rsa_verify data publicKey signature.
End Verify.

Section Sign.
(** Node's [crypto.createSign("SHA256").update(data).sign(privateKey, "hex")],
    which lives outside the repository. *)
Variable rsa_sign : string -> string -> result string.

(** [signData(data, privateKey)] *)
Definition signData (data privateKey : string) : result string :=
  if (data =? EmptyString)%string || (privateKey =? EmptyString)%string
  then Throw (Error "Data and privateKey are required for signing")
  else rsa_sign data privateKey.
End Sign.

End Crypto.

(** ** The [Transaction] class *)

Module Transaction.

Record t : Type := mk {
  fromAddress : option string;   (* a string or [null] *)
  toAddress : string;
  amount : Z;
  type : string;
  timestamp : Z;
  signature : option string;     (* a string or [null] *)
  status : string
}.

(** [new Transaction(fromAddress, toAddress, amount, type = "standard")];
    [now] is the value of [Date.now()]. *)
Definition new (fromAddress : option string) (toAddress : string) (amount : Z)
           (type : option string) (now : Z) : t :=
  mk fromAddress toAddress amount
     (match type with Some ty => ty | None => "standard" end)
     now None "pending".

Definition hashInput (tx : t) : string :=
  JS.tpl_opt (fromAddress tx) ++ toAddress tx ++ JS.string_of_Z (amount tx)
    ++ type tx ++ JS.string_of_Z (timestamp tx) ++ status tx.

(** [calculateHash()]: crypto-js [SHA256(...).toString()] *)
Definition calculateHash (tx : t) : string := SHA256.hex (hashInput tx).

Section Verify.
Variable rsa_verify : string -> string -> string -> result bool.

(** [isValid()].  [verifySignature] declares the parameters
    [(data, publicKey, signature)]; the call here is
    [verifySignature(hashTx, this.signature, this.fromAddress)]. *)
Definition isValid (tx : t) : result bool :=
  if (type tx =? "reward")%string then Ok true
  else if JS.falsy (signature tx) then Throw (Error "Transaction must be signed.")
  else if JS.falsy (fromAddress tx) then
    Throw (Error "Transaction must have a from address.")
  else
    let hashTx := calculateHash tx in
    Crypto.verifySignature rsa_verify hashTx
      (JS.tpl_opt (signature tx)) (JS.tpl_opt (fromAddress tx)).
End Verify.

Definition statuses : list string := ["pending"; "confirmed"; "available"].

Definition with_status (tx : t) (status : string) : t :=
  mk (fromAddress tx) (toAddress tx) (amount tx) (type tx) (timestamp tx)
     (signature tx) status.

(** [updateStatus(newStatus)]: the outcome of the call and the transaction
    after it. *)
Definition updateStatus (tx : t) (newStatus : string) : result unit * t :=
  if existsb (String.eqb newStatus) statuses then
    (Ok tt, with_status tx newStatus)
  else
    (Throw (Error ("Invalid status '" ++ newStatus ++ "' provided to updateStatus.")),
     tx).

(** [toString()] *)
Definition toString (tx : t) : string :=
  let indent := JS.newline ++ "            " in
  "Transaction - "
    ++ indent ++ "From: " ++ JS.or_else (fromAddress tx) "System" ++ ", "
    ++ indent ++ "To: " ++ toAddress tx ++ ", "
    ++ indent ++ "Amount: " ++ JS.string_of_Z (amount tx) ++ ", "
    ++ indent ++ "Type: " ++ type tx ++ ", "
    ++ indent ++ "Status: " ++ status tx ++ ", "
    ++ indent ++ "Timestamp: " ++ JS.string_of_Z (timestamp tx) ++ ", "
    ++ indent ++ "Signature: " ++ JS.or_else (signature tx) "None".

(** [JSON.stringify(tx)]: the own properties in the order the constructor
    assigns them. *)
Definition stringify (tx : t) : string :=
  "{" ++ JS.join ","
    [ JS.json_field "fromAddress" (JS.json_opt (fromAddress tx));
      JS.json_field "toAddress" (JS.json_string (toAddress tx));
      JS.json_field "amount" (JS.string_of_Z (amount tx));
      JS.json_field "type" (JS.json_string (type tx));
      JS.json_field "timestamp" (JS.string_of_Z (timestamp tx));
      JS.json_field "signature" (JS.json_opt (signature tx));
      JS.json_field "status" (JS.json_string (status tx)) ]
    ++ "}".

(** [JSON.stringify(txs)] for an array of transactions. *)
Definition stringify_array (txs : list t) : string :=
  "[" ++ JS.join "," (map stringify txs) ++ "]".

Definition with_signature (tx : t) (signature : option string) : t :=
  mk (fromAddress tx) (toAddress tx) (amount tx) (type tx) (timestamp tx)
     signature (status tx).

Section Sign.
Variable rsa_sign : string -> string -> result string.

(** [signTransaction(privateKey)]: the outcome of the call and the
    transaction after it. *)
Definition signTransaction (tx : t) (privateKey : string) : result unit * t :=
  if negb (type tx =? "reward")%string && JS.falsy (fromAddress tx) then
    (Throw (Error "Non-reward transactions require a from address."), tx)
  else
    let hashTx := calculateHash tx in
    match Crypto.signData rsa_sign hashTx privateKey with
    | Throw e => (Throw e, tx)
    | Ok signature => (Ok tt, with_signature tx (Some signature))
    end.
End Sign.

(** [tx.validate()], which [Block.validateTransactions] calls: the class has
    no method of this name, so the call throws. *)
Definition validate (tx : t) : result bool := Throw TypeError.

End Transaction.

(** ** JavaScript values held by the untyped fields of a block *)

Inductive value : Type :=
| VUndefined
| VNull
| VNum (n : Z)
| VStr (s : string)
| VArr (txs : list Transaction.t).

Module Value.

(** [`${v}`]: an array prints its elements, each by its own [toString()],
    separated by commas. *)
Definition tpl (v : value) : string :=
  match v with
  | VUndefined => "undefined"
  | VNull => "null"
  | VNum n => JS.string_of_Z n
  | VStr s => s
  | VArr txs => JS.join "," (map Transaction.toString txs)
  end.

(** [v === s] for a string [s]. *)
Definition eq_str (v : value) (s : string) : bool :=
  match v with
  | VStr s' => (s' =? s)%string
  | _ => false
  end.

(** [v === w] for two values of which at least one is not an array (two
    arrays are equal only when they are the same object). *)
Definition strict_eq (v w : value) : bool :=
  match v, w with
  | VUndefined, VUndefined => true
  | VNull, VNull => true
  | VNum n, VNum m => n =? m
  | VStr s, VStr s' => (s =? s')%string
  | _, _ => false
  end.

Fixpoint digits (acc : Z) (s : string) : option Z :=
  match s with
  | EmptyString => Some acc
  | String c s' =>
      let n := Z.of_nat (nat_of_ascii c) in
      if (48 <=? n) && (n <=? 57) then digits (10 * acc + (n - 48)) s' else None
  end.

(** [Number(v)], [None] for [NaN].  Of the numeric strings only the plain
    digit sequences are read as numbers (the empty string is 0); signs,
    fractions, exponents and white space are outside this model. *)
Definition to_number (v : value) : option Z :=
  match v with
  | VUndefined => None
  | VNull => Some 0
  | VNum n => Some n
  | VStr s => digits 0 s
  | VArr txs => digits 0 (tpl (VArr txs))
  end.

End Value.

(** ** The [MerkleTree] class (lib/merkleTree, the variant built on
       [hashSHA256]) *)

Module MerkleTree.

Record t : Type := mk { leaves : list string; tree : list string }.

(** One pass of the [for] loop of [buildTree] over [l = hashes[i]] and
    [r = hashes[i + 1]]: the right operand is [hashes[i + 1] || left]. *)
Fixpoint newLevel (hashes : list string) : result (list string) :=
  match hashes with
  | [] => Ok []
  | [l] => h <- Crypto.hashSHA256 (l ++ l) ;; Ok [h]
  | l :: r :: rest =>
      h <- Crypto.hashSHA256 (l ++ (if (r =? EmptyString)%string then l else r)) ;;
      level <- newLevel rest ;;
      Ok (h :: level)
  end.

(** [buildTree(hashes)] calls itself on the new level until one hash is
    left.  On the empty array it calls itself for ever, which JavaScript
    ends with a [RangeError]; that is the only way to use up the [fuel] of
    [buildTree]. *)
Fixpoint buildTree_rec (fuel : nat) (hashes : list string) : result (list string) :=
  match hashes with
  | [_] => Ok hashes
  | _ =>
      match fuel with
      | O => Throw RangeError
      | S fuel' => level <- newLevel hashes ;; buildTree_rec fuel' level
      end
  end.

Definition buildTree (hashes : list string) : result (list string) :=
  buildTree_rec (List.length hashes) hashes.

(** [new MerkleTree(transactions)] *)
Definition new (transactions : list string) : result t :=
  match transactions with
  | [] => Throw (Error "Transactions must be an array and cannot be empty.")
  | _ =>
      leaves <- mapM Crypto.hashSHA256 transactions ;;
      tree <- buildTree leaves ;;
      Ok (mk leaves tree)
  end.

(** [getRoot()]: [this.tree[this.tree.length - 1]] *)
Definition getRoot (mt : t) : value :=
  match rev (tree mt) with
  | [] => VUndefined
  | root :: _ => VStr root
  end.

(** [this.leaves.indexOf(hash)], [None] for -1. *)
Fixpoint indexOf (hash : string) (hashes : list string) : option nat :=
  match hashes with
  | [] => None
  | h :: rest =>
      if (h =? hash)%string then Some O
      else match indexOf hash rest with
           | Some i => Some (S i)
           | None => None
           end
  end.

(** The [for] loop of [generateProof]: the update expression of the loop is
    [level = this.buildTree(level)].  The sibling index is always inside
    [level], so the default of [nth] is never read. *)
Fixpoint proofLoop (fuel : nat) (level : list string) (index : nat)
         (proof : list string) : result (list string) :=
  if (1 <? List.length level)%nat then
    match fuel with
    | O => Throw RangeError
    | S fuel' =>
        let siblingIndex := if Nat.even index then (index + 1)%nat else (index - 1)%nat in
        let siblingIndex :=
          if (siblingIndex <? List.length level)%nat then siblingIndex else index in
        let proof := (proof ++ [nth siblingIndex level EmptyString])%list in
        let index := (index / 2)%nat in
        level' <- buildTree level ;;
        proofLoop fuel' level' index proof
    end
  else Ok proof.

(** [generateProof(transaction)] *)
Definition generateProof (mt : t) (transaction : string) : result (list string) :=
  hash <- Crypto.hashSHA256 transaction ;;
  match indexOf hash (leaves mt) with
  | None => Throw (Error "Transaction not found in the Merkle Tree.")
  | Some index => proofLoop (List.length (leaves mt)) (leaves mt) index []
  end.

(** The body of [proof.forEach] in [verifyProof]. *)
Definition verifyStep (computedHash siblingHash : string) : result string :=
  let isLeft := (computedHash <? siblingHash)%string in
  Crypto.hashSHA256
    (if isLeft then computedHash ++ siblingHash else siblingHash ++ computedHash).

Fixpoint foldM {A B : Type} (f : A -> B -> result A) (xs : list B) (a : A) : result A :=
  match xs with
  | [] => Ok a
  | x :: xs' => a' <- f a x ;; foldM f xs' a'
  end.

(** [MerkleTree.verifyProof(proof, root, transaction)] *)
Definition verifyProof (proof : list string) (root : value) (transaction : string)
  : result bool :=
  computedHash <- Crypto.hashSHA256 transaction ;;
  computedHash <- foldM verifyStep proof computedHash ;;
  Ok (Value.eq_str root computedHash).

End MerkleTree.

(** ** The [Block] class *)

Module Block.

Record t : Type := mk {
  index : value;
  previousHash : value;
  timestamp : value;
  transactions : list Transaction.t;
  nonce : Z;
  merkleRoot : value;
  hash : string
}.

Definition with_pow (b : t) (nonce : Z) (hash : string) : t :=
  mk (index b) (previousHash b) (timestamp b) (transactions b) nonce
     (merkleRoot b) hash.

(** [calculateMerkleRoot()] over [this.transactions] *)
Definition calculateMerkleRoot (transactions : list Transaction.t) : result value :=
  hashes <- mapM (fun tx => Crypto.hashSHA256 (Transaction.stringify tx)) transactions ;;
  merkleTree <- MerkleTree.new hashes ;;
  Ok (MerkleTree.getRoot merkleTree).

Definition hashContent (b : t) : string :=
  Value.tpl (index b) ++ Value.tpl (previousHash b) ++ Value.tpl (timestamp b)
    ++ Transaction.stringify_array (transactions b)
    ++ Value.tpl (merkleRoot b) ++ JS.string_of_Z (nonce b).

(** [calculateHash()] *)
Definition calculateHash (b : t) : result string :=
  Crypto.hashSHA256 (hashContent b).

(** [new Block(index, previousHash, timestamp, transactions, nonce = 0)].
    A [transactions] argument that is not an array makes
    [this.transactions.map] throw inside [calculateMerkleRoot]. *)
Definition new (index previousHash timestamp transactions : value) (nonce : option Z)
  : result t :=
  match transactions with
  | VArr txs =>
      merkleRoot <- calculateMerkleRoot txs ;;
      let this :=
        mk index previousHash timestamp txs
           (match nonce with Some n => n | None => 0 end) merkleRoot EmptyString in
      hash <- calculateHash this ;;
      Ok (with_pow this (Block.nonce this) hash)
  | _ => Throw TypeError
  end.

(** The condition of the [while] loop of [mineBlock]:
    [this.hash.substring(0, difficulty) !== Array(difficulty + 1).join("0")].
    [Array(n)] throws a [RangeError] for an [n] that is negative or above
    2^32 - 1; [substring] reads a negative bound as 0. *)
Definition offTarget (difficulty : Z) (b : t) : result bool :=
  if negb (JS.array_length_ok (difficulty + 1)) then Throw RangeError
  else
    Ok (negb (String.substring 0 (Z.to_nat difficulty) (hash b)
                =? JS.zeros (Z.to_nat difficulty))%string).

(** The body of the loop: [this.nonce++; this.hash = this.calculateHash()]. *)
Definition mineStep (b : t) : result t :=
  let b' := with_pow b (nonce b + 1) (hash b) in
  hash <- calculateHash b' ;;
  Ok (with_pow b' (nonce b') hash).

(** [mineBlock(difficulty)] as a relation between the block at the call and
    the outcome: the block at the return, or the exception. *)
Inductive mineBlock_returns (difficulty : Z) : t -> result t -> Prop :=
| mine_found (b : t) :
    offTarget difficulty b = Ok false ->
    mineBlock_returns difficulty b (Ok b)
| mine_next (b b' : t) (r : result t) :
    offTarget difficulty b = Ok true ->
    mineStep b = Ok b' ->
    mineBlock_returns difficulty b' r ->
    mineBlock_returns difficulty b r
| mine_cond_throws (b : t) (e : exn) :
    offTarget difficulty b = Throw e ->
    mineBlock_returns difficulty b (Throw e)
| mine_step_throws (b : t) (e : exn) :
    offTarget difficulty b = Ok true ->
    mineStep b = Throw e ->
    mineBlock_returns difficulty b (Throw e).

(** The same loop run for at most [fuel] iterations; [None] when the loop
    is still running after them. *)
Fixpoint mineBlock (fuel : nat) (difficulty : Z) (b : t) : option (result t) :=
  match offTarget difficulty b with
  | Throw e => Some (Throw e)
  | Ok false => Some (Ok b)
  | Ok true =>
      match fuel with
      | O => None
      | S fuel' =>
          match mineStep b with
          | Throw e => Some (Throw e)
          | Ok b' => mineBlock fuel' difficulty b'
          end
      end
  end.

(** The [for] loop of [validateTransactions]. *)
Fixpoint validateEach (txs : list Transaction.t) : result bool :=
  match txs with
  | [] => Ok true
  | tx :: rest =>
      valid <- Transaction.validate tx ;;
      if negb valid then Ok false else validateEach rest
  end.

(** [validateTransactions()]: what the promise resolves to, or the exception
    it is rejected with. *)
Definition validateTransactions (b : t) : result bool :=
  recalculatedMerkleRoot <- calculateMerkleRoot (transactions b) ;;
  if negb (Value.strict_eq (merkleRoot b) recalculatedMerkleRoot) then Ok false
  else validateEach (transactions b).

(** [block.hasValidTransactions()], which [Blockchain.isChainValid] calls:
    the class has no method of this name, so the call throws. *)
Definition hasValidTransactions (b : t) : result bool := Throw TypeError.

End Block.

(** ** The [Blockchain] class *)

Module Blockchain.

Record t : Type := mk {
  chain : list Block.t;
  difficulty : Z;
  pendingTransactions : list Transaction.t;
  miningReward : Z;
  blockTime : Z;
  nodes : list string
}.

Definition with_chain (bc : t) (chain : list Block.t) : t :=
  mk chain (difficulty bc) (pendingTransactions bc) (miningReward bc)
     (blockTime bc) (nodes bc).
Definition with_difficulty (bc : t) (difficulty : Z) : t :=
  mk (chain bc) difficulty (pendingTransactions bc) (miningReward bc)
     (blockTime bc) (nodes bc).
Definition with_pending (bc : t) (pending : list Transaction.t) : t :=
  mk (chain bc) (difficulty bc) pending (miningReward bc) (blockTime bc) (nodes bc).

(** [createGenesisBlock()]: the call gives the constructor of [Block] three
    arguments, so that its [transactions] parameter is [undefined].
    [Date.parse("2024-01-01")] is 1704067200000; [now] is the [Date.now()]
    of the transaction. *)
Definition createGenesisBlock (now : Z) : result Block.t :=
  let genesisTransaction := Transaction.new None "genesis-address" 0 None now in
  Block.new (VNum 1704067200000) (VArr [genesisTransaction]) (VStr "0")
            VUndefined None.

(** [new Blockchain()] *)
Definition new (now : Z) : result t :=
  genesis <- createGenesisBlock now ;;
  Ok (mk [genesis] 2 [] 100 30000 []).

(** [getLatestBlock()]: [None] is [undefined], on an empty chain. *)
Definition getLatestBlock (bc : t) : option Block.t :=
  match rev (chain bc) with
  | [] => None
  | b :: _ => Some b
  end.

(** [adjustDifficulty(lastBlock)]: a comparison with [NaN] is false. *)
Definition adjustDifficulty (bc : t) (lastBlock : Block.t) : result unit * t :=
  match getLatestBlock bc with
  | None => (Throw TypeError, bc)
  | Some latest =>
      match Value.to_number (Block.timestamp lastBlock),
            Value.to_number (Block.timestamp latest) with
      | Some t1, Some t0 =>
          let timeTaken := t1 - t0 in
          if 2 * timeTaken <? blockTime bc then
            (Ok tt, with_difficulty bc (difficulty bc + 1))
          else if timeTaken >? blockTime bc * 2 then
            (Ok tt, with_difficulty bc (difficulty bc - 1))
          else (Ok tt, bc)
      | _, _ => (Ok tt, bc)
      end
  end.

(** [minePendingTransactions(miningRewardAddress)]; [now_tx] and
    [now_block] are the two readings of [Date.now()], [fuel] bounds the
    mining loop ([None]: still mining).  The pair holds the outcome of the
    call and the object after it. *)
Definition minePendingTransactions (fuel : nat) (bc : t) (miningRewardAddress : string)
           (now_tx now_block : Z) : option (result unit * t) :=
  let rewardTx :=
    Transaction.new None miningRewardAddress (miningReward bc) None now_tx in
  let bc := with_pending bc (pendingTransactions bc ++ [rewardTx])%list in
  match getLatestBlock bc with
  | None => Some (Throw TypeError, bc)
  | Some latest =>
      match Block.new (VNum now_block) (VArr (pendingTransactions bc))
                      (VStr (Block.hash latest)) VUndefined None with
      | Throw e => Some (Throw e, bc)
      | Ok block =>
          match Block.mineBlock fuel (difficulty bc) block with
          | None => None
          | Some (Throw e) => Some (Throw e, bc)
          | Some (Ok block) =>
              match adjustDifficulty bc block with
              | (Throw e, bc) => Some (Throw e, bc)
              | (Ok _, bc) =>
                  let bc := with_chain bc (chain bc ++ [block])%list in
                  Some (Ok tt, with_pending bc [])
              end
          end
      end
  end.

(** [broadcastLatestBlock()]: the callback given to [nodes.forEach] has an
    empty body. *)
Definition broadcastLatestBlock (bc : t) : t := bc.

(** [this.isValidChain(newChain)], which [synchronizeChain] calls: the class
    has no method of this name (its own validation is [isChainValid], which
    takes no argument), so the call throws. *)
Definition isValidChain (bc : t) (newChain : list Block.t) : result bool :=
  Throw TypeError.

(** [synchronizeChain(newChain)] *)
Definition synchronizeChain (bc : t) (newChain : list Block.t) : result bool * t :=
  match isValidChain bc newChain with
  | Throw e => (Throw e, bc)
  | Ok valid =>
      if negb valid || (List.length newChain <=? List.length (chain bc))%nat then
        (Ok false, bc)
      else
        let bc := with_chain bc newChain in
        (Ok true, broadcastLatestBlock bc)
  end.

Section Signatures.
Variable rsa_verify : string -> string -> string -> result bool.

(** [addTransaction(transaction)] *)
Definition addTransaction (bc : t) (transaction : Transaction.t) : result unit * t :=
  match Transaction.isValid rsa_verify transaction with
  | Throw e => (Throw e, bc)
  | Ok false => (Throw (Error "Invalid transaction."), bc)
  | Ok true =>
      (Ok tt, with_pending bc (pendingTransactions bc ++ [transaction])%list)
  end.
End Signatures.

(** The linkage of a chain: every block after the first names the hash of
    the block before it. *)
Definition linked (chain : list Block.t) : Prop :=
  forall (i : nat) (b p : Block.t),
    (0 < i)%nat ->
    nth_error chain i = Some b ->
    nth_error chain (i - 1) = Some p ->
    Block.previousHash b = VStr (Block.hash p).

(** The linkage as a check that computes. *)
Fixpoint linkedFrom (previousBlock : Block.t) (rest : list Block.t) : bool :=
  match rest with
  | [] => true
  | currentBlock :: rest' =>
      Value.eq_str (Block.previousHash currentBlock) (Block.hash previousBlock)
      && linkedFrom currentBlock rest'
  end.

Definition linkedb (chain : list Block.t) : bool :=
  match chain with
  | [] => true
  | first :: rest => linkedFrom first rest
  end.

(** The [for] loop of [isChainValid], from the block after [previousBlock]. *)
Fixpoint isChainValid_from (previousBlock : Block.t) (rest : list Block.t) : result bool :=
  match rest with
  | [] => Ok true
  | currentBlock :: rest' =>
      valid <- Block.hasValidTransactions currentBlock ;;
      if negb valid then Ok false
      else
        hash <- Block.calculateHash currentBlock ;;
        if negb (Block.hash currentBlock =? hash)%string then Ok false
        else if negb (Value.eq_str (Block.previousHash currentBlock)
                                   (Block.hash previousBlock))
        then Ok false
        else isChainValid_from currentBlock rest'
  end.

(** [isChainValid()] *)
Definition isChainValid (bc : t) : result bool :=
  match chain bc with
  | [] => Ok true
  | first :: rest => isChainValid_from first rest
  end.

(** [getPendingTransactionsMerkleTree()]: the second argument given to the
    constructor of [MerkleTree] is ignored by it. *)
Definition getPendingTransactionsMerkleTree (bc : t) : result MerkleTree.t :=
  leaves <- mapM (fun tx => Crypto.hashSHA256 (Transaction.toString tx))
                 (pendingTransactions bc) ;;
  MerkleTree.new leaves.

End Blockchain.

(** ** The database models and [BlockchainService] *)

Module TransactionModel.

(** A document of the Transaction collection. *)
Record t : Type := mk {
  _id : string;
  fromAddress : option string;
  toAddress : string;
  amount : Z;
  signature : option string;
  timestamp : Z;
  isReward : bool
}.

(** [isValid()] *)
Definition isValid (tx : t) : bool :=
  if JS.falsy (signature tx) then false
  else if amount tx <=? 0 then false
  else true.

End TransactionModel.

Module BlockModel.

(** A document of the Block collection; [timestamp] is a [Date], held as
    its milliseconds, and [transactions] holds the ids of the documents. *)
Record t : Type := mk {
  index : Z;
  timestamp : Z;
  transactions : list string;
  nonce : Z;
  previousHash : string;
  merkleRoot : value;
  hash : string
}.

Definition with_pow (b : t) (nonce : Z) (hash : string) : t :=
  mk (index b) (timestamp b) (transactions b) nonce (previousHash b)
     (merkleRoot b) hash.

Section Dates.
(** [`${date}`] for a [Date]: the local-time rendering of the platform. *)
Variable dateToString : Z -> string.

Definition hashData (b : t) : string :=
  JS.string_of_Z (index b) ++ previousHash b ++ dateToString (timestamp b)
    ++ Value.tpl (merkleRoot b) ++ JS.string_of_Z (nonce b).

(** [calculateHash()] *)
Definition calculateHash (b : t) : string := SHA256.hex (hashData b).
End Dates.

End BlockModel.

Module BlockchainService.

Record t : Type := mk {
  difficulty : Z;
  miningReward : Z;
  pendingTransactions : list TransactionModel.t
}.

Definition with_pending (s : t) (pending : list TransactionModel.t) : t :=
  mk (difficulty s) (miningReward s) pending.

(** [calculateHashForBlock(index, previousHash, timestamp, merkleRoot, nonce)],
    [timestamp] being a number here. *)
Definition calculateHashForBlock (index : Z) (previousHash : string) (timestamp : Z)
           (merkleRoot : value) (nonce : Z) : string :=
  SHA256.hex (JS.string_of_Z index ++ previousHash ++ JS.string_of_Z timestamp
                ++ Value.tpl merkleRoot ++ JS.string_of_Z nonce).

(** [addTransaction(transaction)] *)
Definition addTransaction (s : t) (transaction : TransactionModel.t) : result unit * t :=
  if JS.falsy (TransactionModel.fromAddress transaction)
     || (TransactionModel.toAddress transaction =? EmptyString)%string
  then (Throw (Error "Transaction must include from and to addresses."), s)
  else if negb (TransactionModel.isValid transaction)
  then (Throw (Error "Cannot add invalid transaction to the chain."), s)
  else (Ok tt, with_pending s (pendingTransactions s ++ [transaction])%list).

(** The requests served while [minePendingTransactions] is suspended at an
    [await] on the database: each one is a call of [addTransaction]. *)
Definition arrive (s : t) (requests : list TransactionModel.t) : t :=
  fold_left (fun s tx => snd (addTransaction s tx)) requests s.

(** What the surroundings of one call of [minePendingTransactions] give it:
    the answers of the database, the readings of the clock, the id of the
    new document, and the requests served during its two waits. *)
Record world : Type := World {
  latestBlock : result (option BlockModel.t);
                                         (* of [getLatestBlock]: a rejection, or
                                            the block, [null] when the collection
                                            is empty *)
  during_latest : list TransactionModel.t;
  rewardId : string;
  now_reward : Z;
  now_block : Z;
  now_hash : Z;
  saveOutcome : result unit;             (* of [safeBlockSave] *)
  during_save : list TransactionModel.t
}.

(** Where the call ended: its outcome, the service after it, and the block
    it handed to [safeBlockSave], if it got that far. *)
Record ending : Type := Ending {
  outcome : result unit;
  after : t;
  minedBlock : option BlockModel.t
}.

Section Runtime.
(** [JSON.stringify(tx)] for a document, as the database library renders
    it. *)
Variable stringifyDoc : TransactionModel.t -> string.
Variable dateToString : Z -> string.

(** [proofOfWork(block)] for at most [fuel] iterations. *)
Fixpoint proofOfWork (fuel : nat) (s : t) (block : BlockModel.t)
  : option (result BlockModel.t) :=
  if negb (JS.array_length_ok (difficulty s + 1)) then Some (Throw RangeError)
  else if String.prefix (JS.zeros (Z.to_nat (difficulty s))) (BlockModel.hash block)
  then Some (Ok block)
  else
    match fuel with
    | O => None
    | S fuel' =>
        let block := BlockModel.with_pow block (BlockModel.nonce block + 1)
                                         (BlockModel.hash block) in
        let block := BlockModel.with_pow block (BlockModel.nonce block)
                       (BlockModel.calculateHash dateToString block) in
        proofOfWork fuel' s block
    end.

(** [minePendingTransactions(miningRewardAddress)], one call from start
    to end.  The two waits on the database, [await this.getLatestBlock()]
    and [await this.safeBlockSave(newBlock)], let other requests run;
    [await this.proofOfWork(newBlock)] resumes without them.  A rejection
    of the first wait ends the call before the reward is made. *)
Definition minePendingTransactions (fuel : nat) (s : t)
           (miningRewardAddress : string) (w : world) : option ending :=
  match pendingTransactions s with
  | [] => Some (Ending (Throw (Error "No transactions to mine.")) s None)
  | _ =>
      let s := arrive s (during_latest w) in
      match latestBlock w with
      | Throw e => Some (Ending (Throw e) s None)
      | Ok latestBlock =>
          let rewardTransaction :=
            TransactionModel.mk (rewardId w) None miningRewardAddress (miningReward s)
                                None (now_reward w) false in
          let s := with_pending s (pendingTransactions s ++ [rewardTransaction])%list in
          let transactionData := map stringifyDoc (pendingTransactions s) in
          match MerkleTree.new transactionData with
          | Throw e => Some (Ending (Throw e) s None)
          | Ok merkleTree =>
              match latestBlock with
              | None => Some (Ending (Throw TypeError) s None)
              | Some latestBlock =>
                  let newBlock :=
                    BlockModel.mk
                      (BlockModel.index latestBlock + 1)
                      (now_block w)
                      (map TransactionModel._id (pendingTransactions s))
                      0
                      (BlockModel.hash latestBlock)
                      (MerkleTree.getRoot merkleTree)
                      (calculateHashForBlock
                         (BlockModel.index latestBlock + 1) (BlockModel.hash latestBlock)
                         (now_hash w) (MerkleTree.getRoot merkleTree) 0) in
                  match proofOfWork fuel s newBlock with
                  | None => None
                  | Some (Throw e) => Some (Ending (Throw e) s None)
                  | Some (Ok newBlock) =>
                      let s := arrive s (during_save w) in
                      match saveOutcome w with
                      | Throw e => Some (Ending (Throw e) s (Some newBlock))
                      | Ok _ => Some (Ending (Ok tt) (with_pending s []) (Some newBlock))
                      end
                  end
              end
          end
      end
  end.
End Runtime.

End BlockchainService.

(** ** Concrete inputs used below *)

Module Examples.

(** A payment, as the constructor leaves it and once confirmed. *)
Definition payment : Transaction.t :=
  Transaction.new (Some "alice") "bob" 5 None 1704067200000.
Definition paymentConfirmed : Transaction.t :=
  snd (Transaction.updateStatus payment "confirmed").

(** An unsigned transaction of kind genesis. *)
Definition genesisUnsigned : Transaction.t :=
  Transaction.new None "genesis-address" 50 (Some "genesis") 1704067200000.

Definition reward (address : string) (now : Z) : Transaction.t :=
  Transaction.new None address 100 (Some "reward") now.

(** The same payment carrying a signature. *)
Definition paymentSigned : Transaction.t :=
  Transaction.mk (Some "alice") "bob" 5 "standard" 1704067200000
                 (Some "3045022100c0ffee") "pending".

(** The tree of the single transaction "a". *)
Definition leafA : string :=
  "ca978112ca1bbdcafac231b39a23dc4da786eff8147c4e72b9807785afee48bb".
Definition treeA : MerkleTree.t := MerkleTree.mk [leafA] [leafA].

Definition get {A : Type} (default : A) (r : result A) : A :=
  match r with
  | Ok a => a
  | Throw _ => default
  end.

Definition noBlock : Block.t :=
  Block.mk VUndefined VUndefined VUndefined [] 0 VUndefined EmptyString.

(** The transaction that [createGenesisBlock] makes, at the time
    1704067200000, and a block that holds it, before and after mining at
    difficulty 1. *)
Definition genesisTransaction : Transaction.t :=
  Transaction.new None "genesis-address" 0 None 1704067200000.
Definition blockZero : Block.t :=
  Eval vm_compute in
    get noBlock (Block.new (VNum 0) (VStr "0") (VNum 1704067200000)
                           (VArr [genesisTransaction]) None).
Definition blockZeroMined : Block.t :=
  Eval vm_compute in
    match Block.mineBlock 3 1 blockZero with
    | Some r => get noBlock r
    | None => noBlock
    end.

Definition ta : Transaction.t := Transaction.new (Some "alice") "bob" 5 None 1.
Definition tb : Transaction.t := Transaction.new (Some "bob") "carol" 3 None 2.
Definition tc : Transaction.t := Transaction.new (Some "carol") "alice" 1 None 3.

(** Two blocks built from the same index, previous hash, time stamp and
    nonce: one over three transactions, one over the same three with the
    last one repeated. *)
Definition blockABC : Block.t :=
  Eval vm_compute in
    get noBlock (Block.new (VNum 1) (VStr "0") (VNum 1704067200000)
                           (VArr [ta; tb; tc]) None).
Definition blockABCC : Block.t :=
  Eval vm_compute in
    get noBlock (Block.new (VNum 1) (VStr "0") (VNum 1704067200000)
                           (VArr [ta; tb; tc; tc]) None).


(** Chains for [synchronizeChain]: every block holds one reward
    transaction and names the hash of the block before it. *)
Definition nextBlock (miner : string) (time : Z) (chain : list Block.t) : Block.t :=
  get noBlock
      (Block.new (VNum (Z.of_nat (List.length chain)))
                 (VStr (Block.hash (last chain noBlock)))
                 (VNum time) (VArr [reward miner time]) None).

Fixpoint extend (n : nat) (miner : string) (time : Z) (chain : list Block.t)
  : list Block.t :=
  match n with
  | O => chain
  | S n' => extend n' miner (time + 1) (chain ++ [nextBlock miner time chain])%list
  end.

Definition peerZero : Block.t :=
  Eval vm_compute in
    get noBlock (Block.new (VNum 0) (VStr "0") (VNum 1704067200999)
                           (VArr [reward "peer" 1704067200999]) None).

Definition localChain : list Block.t :=
  Eval vm_compute in extend 4 "local" 1704067201000 [blockZero].
Definition shortChain : list Block.t :=
  Eval vm_compute in extend 2 "peer" 1704067201000 [peerZero].
Definition longChain : list Block.t :=
  Eval vm_compute in extend 6 "peer" 1704067201000 [peerZero].

Definition localLedger : Blockchain.t :=
  Blockchain.mk localChain 2 [] 100 30000 [].

(** The service with one pending transaction, a second transaction that
    is submitted while the mined block is being saved, and the
    surroundings of that call. *)
Definition doc1 : TransactionModel.t :=
  TransactionModel.mk "id-1" (Some "alice") "bob" 5 (Some "sig-1") 1704067200000 false.
Definition doc2 : TransactionModel.t :=
  TransactionModel.mk "id-2" (Some "bob") "carol" 3 (Some "sig-2") 1704067201500 false.

Definition service : BlockchainService.t := BlockchainService.mk 1 100 [doc1].

Definition storedZero : BlockModel.t :=
  BlockModel.mk 0 1704067200000 ["id-0"] 0 "0"
                (VStr "03d35f7be37c36aec5bcf906c216752913b246b75847b45e38fe929f640243ed")
                "e92fee3eb8d67d56598d41c53add2f95f79a300adbbf1ba8b1dab36112c3fec5".

Definition lateSubmission : BlockchainService.world :=
  BlockchainService.World (Ok (Some storedZero)) [] "id-reward"
                          1704067201000 1704067201001 1704067201002
                          (Ok tt) [doc2].

(** Stand-ins for the two renderings that the platform owns. *)
Definition renderDoc (tx : TransactionModel.t) : string :=
  "{" ++ JS.join ","
    [ JS.json_field "_id" (JS.json_string (TransactionModel._id tx));
      JS.json_field "fromAddress" (JS.json_opt (TransactionModel.fromAddress tx));
      JS.json_field "toAddress" (JS.json_string (TransactionModel.toAddress tx));
      JS.json_field "amount" (JS.string_of_Z (TransactionModel.amount tx)) ]
    ++ "}".
Definition renderDate (ms : Z) : string := JS.string_of_Z ms.

End Examples.

(** ** Further code around the ledger *)

Definition nonEmpty (s : string) : Prop := s <> EmptyString.

(** The second [MerkleTree] class, which hashes [JSON.stringify(transaction)]
    with its own [hashData] and walks the layers with [getNextLayer]. *)
Module MerkleTree2.

(** [hashData(data)] *)
Definition hashData (data : string) : string := SHA256.hex data.

Record t : Type := mk { transactions : list string; tree : list string }.

(** [getNextLayer(currentLayer)] *)
Fixpoint getNextLayer (currentLayer : list string) : list string :=
  match currentLayer with
  | [] => []
  | [l] => [hashData (l ++ l)]
  | l :: r :: rest => hashData (l ++ r) :: getNextLayer rest
  end.

(** The [while] loop of [buildTree], for at most [fuel] passes; a layer of
    two or more hashes comes back only when the fuel is used up, which
    [buildTree] never does. *)
Fixpoint buildTree_loop (fuel : nat) (layer : list string) : list string :=
  if (1 <? List.length layer)%nat then
    match fuel with
    | O => layer
    | S fuel' => buildTree_loop fuel' (getNextLayer layer)
    end
  else layer.

(** [buildTree(hashedTransactions)] *)
Definition buildTree (hashedTransactions : list string) : list string :=
  buildTree_loop (List.length hashedTransactions) hashedTransactions.

Section Elements.
(** The transactions are whatever [JSON.stringify] can render. *)
Variable A : Type.
Variable stringify : A -> string.

(** [new MerkleTree(transactions)] *)
Definition new (transactions : list A) : result t :=
  match transactions with
  | [] =>
      Throw (Error "A non-empty array of transactions is required to construct a Merkle Tree")
  | _ =>
      let hashed := map (fun transaction => hashData (stringify transaction)) transactions in
      Ok (mk hashed (buildTree hashed))
  end.

(** The [while] loop of [generateProof]. *)
Fixpoint proofLoop (fuel : nat) (layer : list string) (index : nat)
         (proof : list string) : list string :=
  if (1 <? List.length layer)%nat then
    match fuel with
    | O => proof
    | S fuel' =>
        let isRightNode := Nat.odd index in
        let siblingIndex := if isRightNode then (index - 1)%nat else (index + 1)%nat in
        let proof :=
          match nth_error layer siblingIndex with
          | Some sibling => (proof ++ [sibling])%list
          | None => proof
          end in
        proofLoop fuel' (getNextLayer layer) (index / 2)%nat proof
    end
  else proof.

(** [generateProof(transaction)]: [None] is [null]. *)
Definition generateProof (mt : t) (transaction : A) : option (list string) :=
  match MerkleTree.indexOf (hashData (stringify transaction)) (transactions mt) with
  | None => None
  | Some index =>
      Some (proofLoop (List.length (transactions mt)) (transactions mt) index [])
  end.

(** [MerkleTree.verifyProof(proof, root, transaction)] *)
Definition verifyProof (proof : list string) (root : value) (transaction : A) : bool :=
  let hash :=
    fold_left (fun hash siblingHash =>
                 let isLeftNode := (hash <? siblingHash)%string in
                 hashData (if isLeftNode then hash ++ siblingHash
                           else siblingHash ++ hash))
              proof (hashData (stringify transaction)) in
  Value.eq_str root hash.
End Elements.

(** [getRoot()]: [this.tree[0]] *)
Definition getRoot (mt : t) : value :=
  match tree mt with
  | [] => VUndefined
  | root :: _ => VStr root
  end.

End MerkleTree2.

(** What the balance code reads.  An amount is a JavaScript number, a
    binary64 float (amounts are fractional: the schema sets their minimum at
    0.01), and the balances are added up in that arithmetic. *)
Module Payments.

Record transaction : Type := Payment {
  fromAddress : option string;   (* a string or [null] *)
  toAddress : string;
  amount : PrimFloat.float;
  status : string
}.

(** [blockchain.chain], each block by its [transactions], and
    [blockchain.pendingTransactions]. *)
Record blockchain : Type := Ledger {
  chain : list (list transaction);
  pendingTransactions : list transaction
}.

End Payments.

(** The [BalanceManager] class. *)
Module BalanceManager.

(** [x === address] for the sender or recipient [x] of a transaction. *)
Definition sameAddress (x : option string) (address : string) : bool :=
  match x with
  | Some s => (s =? address)%string
  | None => false
  end.

(** The callback of [block.transactions.forEach] in [calculateBalance]. *)
Definition countTransaction (address status : string) (balance : PrimFloat.float)
           (transaction : Payments.transaction) : PrimFloat.float :=
  if negb (Payments.status transaction =? status)%string then balance
  else
    let balance :=
      if sameAddress (Payments.fromAddress transaction) address
      then PrimFloat.sub balance (Payments.amount transaction) else balance in
    if (Payments.toAddress transaction =? address)%string
    then PrimFloat.add balance (Payments.amount transaction) else balance.

(** The callback of [pendingTransactions.forEach]. *)
Definition countQueued (address : string) (balance : PrimFloat.float)
           (transaction : Payments.transaction) : PrimFloat.float :=
  if sameAddress (Payments.fromAddress transaction) address
  then PrimFloat.sub balance (Payments.amount transaction) else balance.

(** [calculateBalance(address, status)] *)
Definition calculateBalance (blockchain : Payments.blockchain) (address status : string)
  : PrimFloat.float :=
  let balance :=
    fold_left (fun balance block => fold_left (countTransaction address status) block balance)
              (Payments.chain blockchain) PrimFloat.zero in
  if (status =? "pending")%string then
    fold_left (countQueued address) (Payments.pendingTransactions blockchain) balance
  else balance.

(** [calculateConfirmedBalance(address)] *)
Definition calculateConfirmedBalance (blockchain : Payments.blockchain) (address : string)
  : PrimFloat.float :=
  calculateBalance blockchain address "confirmed".

(** [calculatePendingBalance(address)] *)
Definition calculatePendingBalance (blockchain : Payments.blockchain) (address : string)
  : PrimFloat.float :=
  calculateBalance blockchain address "pending".

(** [calculateAvailableBalance(address)] *)
Definition calculateAvailableBalance (blockchain : Payments.blockchain) (address : string)
  : PrimFloat.float :=
  let confirmedBalance := calculateConfirmedBalance blockchain address in
  let pendingBalance := calculatePendingBalance blockchain address in
  PrimFloat.sub confirmedBalance pendingBalance.

End BalanceManager.

(** [calculateBalances] of the [Wallet] class; the wallet is its public key. *)
Module Wallet.

Record balances : Type := Balances {
  confirmedBalance : PrimFloat.float;
  pendingBalance : PrimFloat.float;
  availableBalance : PrimFloat.float
}.

(** The body of the inner loop over [block.transactions]. *)
Definition countConfirmed (publicKey : string) (confirmedBalance : PrimFloat.float)
           (transaction : Payments.transaction) : PrimFloat.float :=
  let confirmedBalance :=
    if (Payments.toAddress transaction =? publicKey)%string
    then PrimFloat.add confirmedBalance (Payments.amount transaction)
    else confirmedBalance in
  if BalanceManager.sameAddress (Payments.fromAddress transaction) publicKey
  then PrimFloat.sub confirmedBalance (Payments.amount transaction)
  else confirmedBalance.

(** [calculateBalances(blockchain)] *)
Definition calculateBalances (publicKey : string) (blockchain : Payments.blockchain)
  : balances :=
  let confirmedBalance :=
    fold_left (fun balance block => fold_left (countConfirmed publicKey) block balance)
              (Payments.chain blockchain) PrimFloat.zero in
  let pendingBalance :=
    fold_left (BalanceManager.countQueued publicKey)
              (Payments.pendingTransactions blockchain) PrimFloat.zero in
  let availableBalance := PrimFloat.sub confirmedBalance pendingBalance in
  Balances confirmedBalance pendingBalance availableBalance.

End Wallet.

(** [adjustDifficulty] of the [MiningService] class, on the service it holds. *)
Module MiningService.

(** [adjustDifficulty(blockTime)] *)
Definition adjustDifficulty (blockchainService : BlockchainService.t) (blockTime : Z)
  : BlockchainService.t :=
  let currentDifficulty := BlockchainService.difficulty blockchainService in
  let newDifficulty :=
    if blockTime <? 2000 then currentDifficulty + 1 else currentDifficulty - 1 in
  BlockchainService.mk (Z.max 1 newDifficulty)
                       (BlockchainService.miningReward blockchainService)
                       (BlockchainService.pendingTransactions blockchainService).

End MiningService.

(** [synchronizeChain] of the [NodeSynchronization] class, given the chains
    that the peers answered with. *)
Module NodeSynchronization.

(** [chains.sort((a, b) => b.length - a.length)]: the sort is stable, so a
    chain goes before the first chain that is not longer than it. *)
Fixpoint insert (a : list Block.t) (sorted : list (list Block.t)) : list (list Block.t) :=
  match sorted with
  | [] => [a]
  | b :: rest =>
      if (List.length a <? List.length b)%nat then b :: insert a rest
      else a :: sorted
  end.

Definition sortByLength (chains : list (list Block.t)) : list (list Block.t) :=
  fold_right insert [] chains.

Section Ledger.
(** [isValidChain] and [replaceChain] are called on the ledger and are not
    defined by the [Blockchain] class: they are taken as given. *)
Variable isValidChain : list Block.t -> result bool.
Variable replaceChain : Blockchain.t -> list Block.t -> Blockchain.t.

(** [synchronizeChain()], after [Promise.all] has gathered [chains]: the
    outcome of the call and the ledger after it. *)
Definition synchronizeChain (blockchain : Blockchain.t) (chains : list (list Block.t))
  : result unit * Blockchain.t :=
  match sortByLength chains with
  | [] => (Ok tt, blockchain)
  | longestChain :: _ =>
      if (List.length (Blockchain.chain blockchain) <? List.length longestChain)%nat then
        match isValidChain longestChain with
        | Throw e => (Throw e, blockchain)
        | Ok true => (Ok tt, replaceChain blockchain longestChain)
        | Ok false => (Ok tt, blockchain)
        end
      else (Ok tt, blockchain)
  end.
End Ledger.

End NodeSynchronization.

(** [validateChain] of the [ValidationService] class.  An element of the
    chain is [Some b] when it is an instance of the Block model, with the
    document [b], and [None] when it is anything else, as every block of a
    chain parsed from JSON is. *)
Module ValidationService.

Section Dates.
Variable dateToString : Z -> string.

(** The [for] loop of [validateChain], from the element after
    [previousBlock]. *)
Fixpoint validateChain_from (previousBlock : option BlockModel.t)
         (rest : list (option BlockModel.t)) : result bool :=
  match rest with
  | [] => Ok true
  | currentBlock :: rest' =>
      match currentBlock, previousBlock with
      | Some current, Some previous =>
          if negb (BlockModel.previousHash current =? BlockModel.hash previous)%string
          then Throw (Error "Chain is broken. Previous hash does not match.")
          else if negb (BlockModel.hash current
                          =? BlockModel.calculateHash dateToString current)%string
          then Throw (Error ("Invalid hash on block "
                               ++ JS.string_of_Z (BlockModel.index current)))
          else validateChain_from currentBlock rest'
      | _, _ => Throw (Error "Invalid block type.")
      end
  end.

(** [validateChain(chain)] for an array. *)
Definition validateChain (chain : list (option BlockModel.t)) : result bool :=
  match chain with
  | [] => Throw (Error "Invalid blockchain.")
  | first :: rest => validateChain_from first rest
  end.
End Dates.

End ValidationService.

(** The [TransactionPool] class.  The pool holds references to transaction
    objects that its callers hold too, so the objects live in a heap and the
    two arrays hold their addresses. *)
Module TransactionPool.

(** A transaction object as the pool reads it: its [id] property, [None]
    when the object has none (the constructor of [Transaction] sets none),
    and the transaction itself. *)
Record obj : Type := Obj { id : option string; tx : Transaction.t }.

Record t : Type := mk {
  heap : nat -> obj;
  pendingTransactions : list nat;
  confirmedTransactions : list nat
}.

(** [new TransactionPool()] around the objects that exist. *)
Definition new (heap : nat -> obj) : t := mk heap [] [].

(** [a === b] for two [id] properties: [undefined] equals [undefined]. *)
Definition sameId (a b : option string) : bool :=
  match a, b with
  | None, None => true
  | Some x, Some y => (x =? y)%string
  | _, _ => false
  end.

(** [pool.findIndex((t) => t.id === id)], [None] for -1. *)
Fixpoint findIndex (heap : nat -> obj) (wanted : option string) (pool : list nat)
  : option nat :=
  match pool with
  | [] => None
  | r :: rest =>
      if sameId (id (heap r)) wanted then Some O
      else match findIndex heap wanted rest with
           | Some i => Some (S i)
           | None => None
           end
  end.

(** [pool[i] = r] for an [i] inside the array. *)
Fixpoint setAt (i : nat) (r : nat) (pool : list nat) : list nat :=
  match pool, i with
  | [], _ => []
  | _ :: rest, O => r :: rest
  | x :: rest, S i' => x :: setAt i' r rest
  end.

(** [pool.splice(i, 1)]: the array without its element at [i]. *)
Fixpoint removeAt (i : nat) (pool : list nat) : list nat :=
  match pool, i with
  | [], _ => []
  | _ :: rest, O => rest
  | x :: rest, S i' => x :: removeAt i' rest
  end.

(** The end of [addOrUpdateTransaction], on the pool that the [switch]
    chose. *)
Definition place (heap : nat -> obj) (targetPool : list nat) (transaction : nat)
  : list nat :=
  match findIndex heap (id (heap transaction)) targetPool with
  | Some transactionIndex => setAt transactionIndex transaction targetPool
  | None => (targetPool ++ [transaction])%list
  end.

(** [addOrUpdateTransaction(transaction)]: the outcome of the call and the
    pool after it. *)
Definition addOrUpdateTransaction (p : t) (transaction : nat) : result unit * t :=
  let status := Transaction.status (tx (heap p transaction)) in
  if (status =? "pending")%string then
    (Ok tt, mk (heap p) (place (heap p) (pendingTransactions p) transaction)
               (confirmedTransactions p))
  else if (status =? "confirmed")%string then
    (Ok tt, mk (heap p) (pendingTransactions p)
               (place (heap p) (confirmedTransactions p) transaction))
  else (Throw (Error ("Unsupported transaction status: " ++ status)), p).

(** The heap after [transaction.updateStatus(newStatus)] on the object at
    [r]. *)
Definition updateStatus (heap : nat -> obj) (r : nat) (newStatus : string) : nat -> obj :=
  fun r' =>
    if (r' =? r)%nat then
      Obj (id (heap r)) (snd (Transaction.updateStatus (tx (heap r)) newStatus))
    else heap r'.

(** [confirmTransaction(transactionId)] *)
Definition confirmTransaction (p : t) (transactionId : option string) : t :=
  match findIndex (heap p) transactionId (pendingTransactions p) with
  | None => p
  | Some transactionIndex =>
      match nth_error (pendingTransactions p) transactionIndex with
      | None => p
      | Some transaction =>
          mk (updateStatus (heap p) transaction "confirmed")
             (removeAt transactionIndex (pendingTransactions p))
             (confirmedTransactions p ++ [transaction])%list
      end
  end.

(** [pool.find((t) => t.id === id)] *)
Definition find (heap : nat -> obj) (wanted : option string) (pool : list nat)
  : option nat :=
  List.find (fun r => sameId (id (heap r)) wanted) pool.

(** [findTransactionById(id)]: [None] is [null]. *)
Definition findTransactionById (p : t) (wanted : option string) : option nat :=
  match find (heap p) wanted (pendingTransactions p) with
  | Some r => Some r
  | None => find (heap p) wanted (confirmedTransactions p)
  end.

(** [getAllTransactions()] *)
Definition getAllTransactions (p : t) : list nat :=
  (pendingTransactions p ++ confirmedTransactions p)%list.

(** [removeTransactions(transactionsToRemove)]: [includes] compares the
    objects by identity. *)
Definition removeTransactions (p : t) (transactionsToRemove : list nat) : t :=
  let keep := fun r => negb (existsb (Nat.eqb r) transactionsToRemove) in
  mk (heap p) (filter keep (pendingTransactions p))
     (filter keep (confirmedTransactions p)).

End TransactionPool.

(** Further concrete inputs. *)
Module Samples.

(** A stand-in for the verifier of the platform, in what it does with its
    key: a key that is not PEM text is refused with an exception before
    anything is checked.  On a key that reads, the stand-in compares the
    signature with a digest of the data and the key. *)
Definition nodeVerify (data publicKey signature : string) : result bool :=
  if String.prefix "-----BEGIN " publicKey then
    Ok (signature =? SHA256.hex (data ++ publicKey))%string
  else Throw (Error "error:1E08010C:DECODER routines::unsupported").

(** Amounts that binary64 does not hold exactly, and small ledgers. *)
Definition ten : PrimFloat.float :=
  PrimFloat.add (PrimFloat.mul (PrimFloat.mul PrimFloat.two PrimFloat.two) PrimFloat.two)
                PrimFloat.two.
Definition tenth : PrimFloat.float := PrimFloat.div PrimFloat.one ten.
Definition fifth : PrimFloat.float := PrimFloat.div PrimFloat.two ten.

Definition aliceLedger : Payments.blockchain :=
  Payments.Ledger
    [[Payments.Payment (Some "carol") "alice" tenth "confirmed"]]
    [Payments.Payment (Some "alice") "bob" tenth "pending"].
Definition aliceToBob : Payments.transaction :=
  Payments.Payment (Some "alice") "bob" PrimFloat.one "pending".

Definition bobLedger : Payments.blockchain :=
  Payments.Ledger
    [[Payments.Payment (Some "alice") "bob" tenth "confirmed";
      Payments.Payment (Some "bob") "carol" fifth "confirmed"]]
    [Payments.Payment (Some "bob") "carol" tenth "pending"].
Definition bobToBob : Payments.blockchain :=
  Payments.Ledger
    [[Payments.Payment (Some "alice") "bob" tenth "confirmed";
      Payments.Payment (Some "bob") "bob" fifth "confirmed"]]
    [].


End Samples.

(** The leaves of the tree of a block: each transaction is rendered, hashed
    by [calculateMerkleRoot], and hashed again by the constructor of the
    tree. *)
Definition blockLeaves (txs : list Transaction.t) : list string :=
  map SHA256.hex (map (fun tx => SHA256.hex (Transaction.stringify tx)) txs).

(** A transaction of the chain that is confirmed and is not a payment of
    the key to itself. *)
Definition settled (publicKey : string) (transaction : Payments.transaction) : Prop :=
  Payments.status transaction = "confirmed"
  /\ ~ (Payments.fromAddress transaction = Some publicKey
        /\ Payments.toAddress transaction = publicKey).

(** * Properties *)

(** ** Helpers *)

Lemma hashSHA256_ok (data : string) :
  data <> EmptyString -> Crypto.hashSHA256 data = Ok (SHA256.hex data).
Proof.
  intros Hne. unfold Crypto.hashSHA256.
  destruct (String.eqb_spec data EmptyString) as [E | _]; [contradiction | reflexivity].
Qed.

Lemma hashSHA256_inv (data h : string) :
  Crypto.hashSHA256 data = Ok h -> h = SHA256.hex data /\ data <> EmptyString.
Proof.
  unfold Crypto.hashSHA256.
  destruct (String.eqb_spec data EmptyString) as [E | N]; intros H.
  - discriminate H.
  - injection H as <-. split; [reflexivity | exact N].
Qed.

Lemma bind_ok {A B : Type} (c : result A) (k : A -> result B) (b : B) :
  bind c k = Ok b -> exists a, c = Ok a /\ k a = Ok b.
Proof.
  destruct c as [a | e]; simpl; intros H; [exists a; auto | discriminate H].
Qed.

Lemma append_empty (a b : string) :
  (a ++ b)%string = EmptyString -> a = EmptyString /\ b = EmptyString.
Proof.
  destruct a as [| c a]; simpl; intros H; [split; [reflexivity | exact H] | discriminate H].
Qed.

Lemma blocks_length (fuel : nat) :
  forall h ws, List.length h = 8%nat -> List.length (SHA256.blocks fuel h ws) = 8%nat.
Proof.
  induction fuel as [| fuel IH]; intros h ws Hh; simpl.
  - exact Hh.
  - destruct ws as [| w ws]; [exact Hh |]. apply IH. reflexivity.
Qed.

(** A digest is never the empty string. *)
Lemma hex_not_empty (s : string) : SHA256.hex s <> EmptyString.
Proof.
  unfold SHA256.hex, SHA256.digest_words.
  set (bs := SHA256.pad _). set (ws := SHA256.words_of_bytes _ _).
  pose proof (blocks_length (List.length ws) SHA256.H0 ws eq_refl) as Hlen.
  destruct (SHA256.blocks (List.length ws) SHA256.H0 ws) as [| w rest];
    [discriminate Hlen |].
  cbn [flat_map SHA256.be_bytes app SHA256.hex_of_bytes]. discriminate.
Qed.

(** The digest of "abc" is the one that FIPS 180-4 tabulates. *)
Lemma hex_abc :
  SHA256.hex "abc" = "ba7816bf8f01cfea414140de5dae2223b00361a396177a9cb410ff61f20015ad".
Proof. vm_compute. reflexivity. Qed.

Lemma round_constants :
  List.length SHA256.K = 64%nat
  /\ nth 0 SHA256.K 0 = 0x428a2f98 /\ nth 63 SHA256.K 0 = 0xc67178f2
  /\ List.length SHA256.H0 = 8%nat
  /\ nth 0 SHA256.H0 0 = 0x6a09e667 /\ nth 7 SHA256.H0 0 = 0x5be0cd19.
Proof. repeat split. Qed.

(** ** The Merkle tree *)

Lemma buildTree_rec_singleton (fuel : nat) :
  forall hashes level,
    MerkleTree.buildTree_rec fuel hashes = Ok level -> List.length level = 1%nat.
Proof.
  induction fuel as [| fuel IH]; intros hashes level H.
  - destruct hashes as [| h [| h' rest]]; simpl in H; try discriminate H.
    injection H as <-. reflexivity.
  - destruct hashes as [| h [| h' rest]].
    + simpl in H. apply (IH _ _ H).
    + simpl in H. injection H as <-. reflexivity.
    + cbn [MerkleTree.buildTree_rec] in H.
      apply bind_ok in H as (lvl & _ & H). apply (IH _ _ H).
Qed.

Lemma buildTree_singleton (hashes level : list string) :
  MerkleTree.buildTree hashes = Ok level -> List.length level = 1%nat.
Proof. apply buildTree_rec_singleton. Qed.

Lemma hashSHA256_no_range (data : string) : Crypto.hashSHA256 data <> Throw RangeError.
Proof.
  unfold Crypto.hashSHA256. destruct (data =? EmptyString)%string; discriminate.
Qed.

Lemma bind_no_range {A B : Type} (c : result A) (k : A -> result B) :
  c <> Throw RangeError -> (forall a, c = Ok a -> k a <> Throw RangeError) ->
  bind c k <> Throw RangeError.
Proof.
  destruct c as [a | e]; simpl; intros Hc Hk; [apply Hk; reflexivity |].
  intros H. apply Hc. injection H as ->. reflexivity.
Qed.

(** A level of n hashes gives a level of n/2 hashes, rounded up, and the
    stack is not what stops it. *)
Lemma newLevel_halves (n : nat) :
  forall hashes,
    (List.length hashes <= n)%nat ->
    MerkleTree.newLevel hashes <> Throw RangeError
    /\ forall level, MerkleTree.newLevel hashes = Ok level ->
                     (2 * List.length level = List.length hashes
                      \/ 2 * List.length level = S (List.length hashes))%nat.
Proof.
  induction n as [| n IH]; intros hashes Hn.
  - destruct hashes; [| simpl in Hn; lia].
    split; [discriminate |]. intros level H. injection H as <-. left. reflexivity.
  - destruct hashes as [| l [| r rest]].
    + split; [discriminate |]. intros level H. injection H as <-. left. reflexivity.
    + cbn [MerkleTree.newLevel]. split.
      * apply bind_no_range; [apply hashSHA256_no_range | discriminate].
      * intros level H. apply bind_ok in H as (h & _ & H). injection H as <-.
        right. reflexivity.
    + cbn [MerkleTree.newLevel].
      destruct (IH rest) as (Hrange & Hlen); [simpl in Hn; lia |].
      split.
      * apply bind_no_range; [apply hashSHA256_no_range |]. intros h _.
        apply bind_no_range; [exact Hrange | discriminate].
      * intros level H. apply bind_ok in H as (h & _ & H).
        apply bind_ok in H as (level' & Hrest & H). injection H as <-.
        destruct (Hlen level' Hrest) as [E | E]; cbn [List.length]; lia.
Qed.

(** On a level that is not empty the recursion of [buildTree] ends within
    the fuel it is given. *)
Lemma buildTree_rec_ends (fuel : nat) :
  forall hashes,
    (1 <= List.length hashes <= S fuel)%nat ->
    MerkleTree.buildTree_rec fuel hashes <> Throw RangeError.
Proof.
  induction fuel as [| fuel IH]; intros hashes Hlen.
  - destruct hashes as [| h [| h' rest]]; simpl in Hlen; try lia. discriminate.
  - destruct hashes as [| h [| h' rest]]; [simpl in Hlen; lia | discriminate |].
    cbn [MerkleTree.buildTree_rec].
    destruct (newLevel_halves _ (h :: h' :: rest) (Nat.le_refl _)) as (Hrange & Hhalf).
    apply bind_no_range; [exact Hrange |].
    intros level Hlevel. apply IH.
    destruct (Hhalf level Hlevel) as [E | E]; cbn [List.length] in *; lia.
Qed.

Lemma buildTree_ends (hashes : list string) :
  hashes <> [] -> MerkleTree.buildTree hashes <> Throw RangeError.
Proof.
  intros Hne. apply buildTree_rec_ends.
  destruct hashes; [contradiction | simpl; lia].
Qed.

(** The loop of [generateProof] runs its body at most once: the level it
    moves to is the root level. *)
Lemma proofLoop_one_sibling (fuel : nat) (level : list string) (index : nat)
      (proof result : list string) :
  MerkleTree.proofLoop fuel level index proof = Ok result ->
  result = proof \/ exists sibling, result = (proof ++ [sibling])%list.
Proof.
  destruct fuel as [| fuel]; simpl;
    destruct (1 <? List.length level)%nat; intros H;
    try discriminate H; try (injection H as <-; left; reflexivity).
  apply bind_ok in H as (level' & Hb & H).
  apply buildTree_singleton in Hb.
  right. eexists.
  destruct fuel as [| fuel]; simpl in H; rewrite Hb in H; simpl in H;
    injection H as <-; reflexivity.
Qed.

Lemma generateProof_short (mt : MerkleTree.t) (transaction : string)
      (proof : list string) :
  MerkleTree.generateProof mt transaction = Ok proof -> (List.length proof <= 1)%nat.
Proof.
  unfold MerkleTree.generateProof. intros H.
  apply bind_ok in H as (h & _ & H).
  destruct (MerkleTree.indexOf h (MerkleTree.leaves mt)); [| discriminate H].
  apply proofLoop_one_sibling in H as [-> | (sib & ->)]; simpl; lia.
Qed.

(** The fuel of the loop of [generateProof] is never used up. *)
Lemma generateProof_ends (mt : MerkleTree.t) (transaction : string) :
  MerkleTree.generateProof mt transaction <> Throw RangeError.
Proof.
  unfold MerkleTree.generateProof.
  apply bind_no_range; [apply hashSHA256_no_range |]. intros h _.
  destruct (MerkleTree.indexOf h (MerkleTree.leaves mt)); [| discriminate].
  destruct (MerkleTree.leaves mt) as [| l [| l' rest]] eqn:Hleaves;
    [discriminate | discriminate |].
  cbn [List.length MerkleTree.proofLoop Nat.ltb Nat.leb].
  apply bind_no_range; [apply buildTree_ends; discriminate |].
  intros level Hlevel. apply buildTree_singleton in Hlevel.
  cbn [MerkleTree.proofLoop]. rewrite Hlevel. discriminate.
Qed.

(** C10 - A tree built from exactly one transaction: its root is the leaf
    hash of that transaction with no further hashing, the proof generated for
    the transaction is empty, and the empty proof verifies against that root. *)
Theorem single_leaf_tree (transaction : string) (mt : MerkleTree.t) :
  MerkleTree.new [transaction] = Ok mt ->
  MerkleTree.leaves mt = [SHA256.hex transaction]
  /\ MerkleTree.getRoot mt = VStr (SHA256.hex transaction)
  /\ MerkleTree.generateProof mt transaction = Ok []
  /\ MerkleTree.verifyProof [] (MerkleTree.getRoot mt) transaction = Ok true.
Proof.
  intros Hnew. unfold MerkleTree.new in Hnew. cbn [mapM] in Hnew.
  apply bind_ok in Hnew as (leaves & Hleaves & Hnew).
  apply bind_ok in Hleaves as (h & Hh & Hleaves).
  cbn in Hleaves. injection Hleaves as <-.
  cbn in Hnew. injection Hnew as <-.
  pose proof (hashSHA256_inv _ _ Hh) as [-> _].
  unfold MerkleTree.generateProof, MerkleTree.verifyProof, MerkleTree.getRoot.
  cbn [MerkleTree.leaves MerkleTree.tree rev app MerkleTree.indexOf].
  rewrite Hh. cbn [bind]. rewrite String.eqb_refl.
  cbn. rewrite String.eqb_refl. repeat split; reflexivity.
Qed.

(** The tree of one non-empty transaction is built. *)
Lemma single_leaf_tree_built (transaction : string) :
  transaction <> EmptyString ->
  exists mt, MerkleTree.new [transaction] = Ok mt.
Proof.
  intros Hne. unfold MerkleTree.new. cbn [mapM].
  rewrite (hashSHA256_ok _ Hne). cbn. eexists. reflexivity.
Qed.

Lemma single_leaf_tree_witness :
  MerkleTree.new ["a"] = Ok Examples.treeA
  /\ MerkleTree.leaves Examples.treeA = [SHA256.hex "a"]
  /\ MerkleTree.getRoot Examples.treeA = VStr (SHA256.hex "a")
  /\ MerkleTree.generateProof Examples.treeA "a" = Ok []
  /\ MerkleTree.verifyProof [] (MerkleTree.getRoot Examples.treeA) "a" = Ok true.
Proof.
  assert (H : MerkleTree.new ["a"] = Ok Examples.treeA) by (vm_compute; reflexivity).
  split; [exact H | exact (single_leaf_tree "a" Examples.treeA H)].
Defined.

(** C2 - The round trip fails on the two transactions "a" and "b", for
    either of them: the proof of "a" is the leaf of "b", and [verifyProof]
    orders the pair by comparing the two hashes, while [buildTree] hashed
    them in the order of their positions. *)
Theorem proof_roundtrip_fails :
  exists mt proof,
    MerkleTree.new ["a"; "b"] = Ok mt
    /\ MerkleTree.getRoot mt
       = VStr "62af5c3cb8da3e4f25061e829ebeea5c7513c54949115b1acc225930a90154da"
    /\ MerkleTree.generateProof mt "a" = Ok proof
    /\ proof = ["3e23e8160039594a33894f6564e1b1348bbd7a0088d42c4acb73eeaed59c009d"]
    /\ MerkleTree.verifyProof proof (MerkleTree.getRoot mt) "a" = Ok false.
Proof.
  eexists. eexists.
  split; [vm_compute; reflexivity |].
  split; [vm_compute; reflexivity |].
  split; [vm_compute; reflexivity |].
  split; [reflexivity |].
  vm_compute. reflexivity.
Qed.

(** On four transactions the proof of the first holds one sibling, where the
    path to the root has two, and it does not verify. *)
Lemma proof_roundtrip_fails_four_leaves :
  exists mt proof,
    MerkleTree.new ["b"; "a"; "c"; "d"] = Ok mt
    /\ MerkleTree.generateProof mt "b" = Ok proof
    /\ List.length proof = 1%nat
    /\ MerkleTree.verifyProof proof (MerkleTree.getRoot mt) "b" = Ok false.
Proof.
  eexists. eexists.
  split; [vm_compute; reflexivity |].
  split; [vm_compute; reflexivity |].
  split; [reflexivity |].
  vm_compute. reflexivity.
Qed.

(** ** Transactions *)

Lemma hex_neq (s1 s2 : string) : (s1 =? s2)%string = false -> s1 <> s2.
Proof. intros H. apply String.eqb_neq. exact H. Qed.

(** C5 - The hash of a transaction is fixed by its sender, recipient,
    amount, kind, time stamp and status: two transactions that agree on these
    six fields have the same hash, whatever their signatures. *)
Theorem canonical_hash_six_fields (t1 t2 : Transaction.t) :
  Transaction.fromAddress t1 = Transaction.fromAddress t2 ->
  Transaction.toAddress t1 = Transaction.toAddress t2 ->
  Transaction.amount t1 = Transaction.amount t2 ->
  Transaction.type t1 = Transaction.type t2 ->
  Transaction.timestamp t1 = Transaction.timestamp t2 ->
  Transaction.status t1 = Transaction.status t2 ->
  Transaction.calculateHash t1 = Transaction.calculateHash t2.
Proof.
  intros Hfrom Hto Hamount Htype Htime Hstatus.
  unfold Transaction.calculateHash, Transaction.hashInput.
  rewrite Hfrom, Hto, Hamount, Htype, Htime, Hstatus. reflexivity.
Qed.

Lemma canonical_hash_six_fields_witness :
  Transaction.signature Examples.payment <> Transaction.signature Examples.paymentSigned
  /\ Transaction.calculateHash Examples.payment
     = Transaction.calculateHash Examples.paymentSigned.
Proof.
  split; [discriminate |].
  apply (canonical_hash_six_fields Examples.payment Examples.paymentSigned);
    reflexivity.
Defined.

(** C5, as stated, fails: a payment and the same payment once confirmed
    agree on sender, recipient, amount, kind and time stamp, and their hashes
    differ. *)
Lemma canonical_hash_reads_status :
  Transaction.fromAddress Examples.payment
  = Transaction.fromAddress Examples.paymentConfirmed
  /\ Transaction.toAddress Examples.payment
     = Transaction.toAddress Examples.paymentConfirmed
  /\ Transaction.amount Examples.payment = Transaction.amount Examples.paymentConfirmed
  /\ Transaction.type Examples.payment = Transaction.type Examples.paymentConfirmed
  /\ Transaction.timestamp Examples.payment
     = Transaction.timestamp Examples.paymentConfirmed
  /\ Transaction.hashInput Examples.payment = "alicebob5standard1704067200000pending"
  /\ Transaction.hashInput Examples.paymentConfirmed
     = "alicebob5standard1704067200000confirmed"
  /\ Transaction.calculateHash Examples.payment
     <> Transaction.calculateHash Examples.paymentConfirmed.
Proof.
  repeat split; try reflexivity.
  apply hex_neq. vm_compute. reflexivity.
Qed.

(** The cases of [isValid()]: a transaction of kind reward is valid
    whatever its signature; any other is refused when its signature is absent
    or empty, refused when its sender is absent or empty, and otherwise
    handed to the signature check, with the signature in the place of the
    public key and the sender in the place of the signature. *)
Lemma isValid_cases (rsa_verify : string -> string -> string -> result bool)
      (tx : Transaction.t) :
  (Transaction.type tx = "reward" -> Transaction.isValid rsa_verify tx = Ok true)
  /\ (Transaction.type tx <> "reward" ->
      JS.falsy (Transaction.signature tx) = true ->
      Transaction.isValid rsa_verify tx = Throw (Error "Transaction must be signed."))
  /\ (Transaction.type tx <> "reward" ->
      JS.falsy (Transaction.signature tx) = false ->
      JS.falsy (Transaction.fromAddress tx) = true ->
      Transaction.isValid rsa_verify tx
      = Throw (Error "Transaction must have a from address."))
  /\ (forall sig sender : string,
        Transaction.type tx <> "reward" ->
        Transaction.signature tx = Some sig -> sig <> EmptyString ->
        Transaction.fromAddress tx = Some sender -> sender <> EmptyString ->
        Transaction.isValid rsa_verify tx
        = rsa_verify (Transaction.calculateHash tx) sig sender).
Proof.
  unfold Transaction.isValid.
  destruct (String.eqb_spec (Transaction.type tx) "reward") as [E | N].
  - repeat split; intros; try reflexivity; contradiction.
  - split; [intros; contradiction |].
    split; [intros _ ->; reflexivity |].
    split; [intros _ -> ->; reflexivity |].
    intros sig sender _ Hsig Hsne Hfrom Hfne. rewrite Hsig, Hfrom. cbn [JS.falsy JS.tpl_opt].
    destruct (String.eqb_spec sig EmptyString) as [? | _]; [contradiction |].
    destruct (String.eqb_spec sender EmptyString) as [? | _]; [contradiction |].
    unfold Crypto.verifySignature.
    destruct (String.eqb_spec sig EmptyString) as [? | _]; [contradiction |].
    destruct (String.eqb_spec sender EmptyString) as [? | _]; [contradiction |].
    destruct (String.eqb_spec (Transaction.calculateHash tx) EmptyString) as [E | _];
      [| reflexivity].
    exfalso. exact (hex_not_empty _ E).
Qed.

(** C6 - [isValid()] gives the signature check its arguments in the wrong
    places: [verifySignature] takes the data, the public key and the
    signature, and is called with the hash, the signature and the sender.
    For a signed transaction that is not a reward the verifier is therefore
    asked to read the signature as a key; when it cannot, and throws, the
    exception is the outcome of [isValid()], whether or not the signature is
    the sender's: the call neither accepts the transaction nor reports an
    invalid signature. *)
Theorem isValid_takes_signature_for_key
        (rsa_verify : string -> string -> string -> result bool)
        (tx : Transaction.t) (sig sender : string) (e : exn) :
  Transaction.type tx <> "reward" ->
  Transaction.signature tx = Some sig -> sig <> EmptyString ->
  Transaction.fromAddress tx = Some sender -> sender <> EmptyString ->
  (forall data signature, rsa_verify data sig signature = Throw e) ->
  Transaction.isValid rsa_verify tx
  = Crypto.verifySignature rsa_verify (Transaction.calculateHash tx) sig sender
  /\ Transaction.isValid rsa_verify tx = Throw e.
Proof.
  intros Hty Hsig Hsne Hfrom Hfne Hkey.
  destruct (isValid_cases rsa_verify tx) as (_ & _ & _ & Hcheck).
  assert (Hdirect : Transaction.isValid rsa_verify tx
                    = Crypto.verifySignature rsa_verify (Transaction.calculateHash tx)
                                             sig sender).
  { unfold Transaction.isValid.
    destruct (String.eqb_spec (Transaction.type tx) "reward") as [E | _]; [contradiction |].
    rewrite Hsig, Hfrom. cbn [JS.falsy JS.tpl_opt].
    destruct (String.eqb_spec sig EmptyString) as [? | _]; [contradiction |].
    destruct (String.eqb_spec sender EmptyString) as [? | _]; [contradiction |].
    reflexivity. }
  split; [exact Hdirect |].
  rewrite (Hcheck sig sender Hty Hsig Hsne Hfrom Hfne). apply Hkey.
Qed.

Lemma isValid_takes_signature_for_key_witness :
  Transaction.isValid Samples.nodeVerify Examples.paymentSigned
  = Crypto.verifySignature Samples.nodeVerify
                           (Transaction.calculateHash Examples.paymentSigned)
                           "3045022100c0ffee" "alice"
  /\ Transaction.isValid Samples.nodeVerify Examples.paymentSigned
     = Throw (Error "error:1E08010C:DECODER routines::unsupported").
Proof.
  apply (isValid_takes_signature_for_key Samples.nodeVerify Examples.paymentSigned
                                         "3045022100c0ffee" "alice").
  - discriminate.
  - reflexivity.
  - discriminate.
  - reflexivity.
  - discriminate.
  - intros data signature. reflexivity.
Defined.

(** The only exemption is the kind reward: the class has no kind genesis,
    and an unsigned transaction of that kind is refused as unsigned, whatever
    the signature check. *)
Lemma genesis_kind_not_exempt :
  Transaction.type Examples.genesisUnsigned = "genesis"
  /\ Transaction.signature Examples.genesisUnsigned = None
  /\ forall rsa_verify,
       Transaction.isValid rsa_verify Examples.genesisUnsigned
       = Throw (Error "Transaction must be signed.").
Proof. repeat split. Qed.

(** The database model has no exemption at all: its [isValid()] refuses an
    unsigned transaction even when it is marked as a reward. *)
Lemma stored_reward_unsigned_invalid (id address : string) (amount now : Z) :
  TransactionModel.isValid (TransactionModel.mk id None address amount None now true)
  = false.
Proof. reflexivity. Qed.

(** C9 - [updateStatus(newStatus)] succeeds exactly when the new status is
    one of pending, confirmed and available, whatever the current status, and
    then sets it; for any other status it throws and the transaction is
    unchanged. *)
Theorem updateStatus_cases (tx : Transaction.t) (newStatus : string) :
  (In newStatus ["pending"; "confirmed"; "available"] ->
   Transaction.updateStatus tx newStatus = (Ok tt, Transaction.with_status tx newStatus))
  /\ (~ In newStatus ["pending"; "confirmed"; "available"] ->
      Transaction.updateStatus tx newStatus
      = (Throw (Error ("Invalid status '" ++ newStatus
                         ++ "' provided to updateStatus.")), tx)).
Proof.
  unfold Transaction.updateStatus.
  destruct (existsb (String.eqb newStatus) Transaction.statuses) eqn:E.
  - split; [reflexivity |]. intros Hn. exfalso. apply Hn.
    apply existsb_exists in E as (s & Hin & Heq).
    apply String.eqb_eq in Heq. subst s. exact Hin.
  - split; [| reflexivity]. intros Hin. exfalso.
    assert (existsb (String.eqb newStatus) Transaction.statuses = true) as E'.
    { apply existsb_exists. exists newStatus. split; [exact Hin | apply String.eqb_refl]. }
    rewrite E in E'. discriminate E'.
Qed.

Lemma updateStatus_cases_witness :
  Transaction.updateStatus Examples.payment "confirmed"
  = (Ok tt, Examples.paymentConfirmed)
  /\ Transaction.updateStatus Examples.payment "rejected"
     = (Throw (Error "Invalid status 'rejected' provided to updateStatus."),
        Examples.payment).
Proof.
  split.
  - apply (proj1 (updateStatus_cases Examples.payment "confirmed")).
    simpl. tauto.
  - apply (proj2 (updateStatus_cases Examples.payment "rejected")).
    simpl. intros [H | [H | [H | []]]]; discriminate H.
Defined.

(** C9, as stated, fails: a confirmed transaction goes back to pending, and
    a pending one goes to available. *)
Lemma confirmed_back_to_pending :
  Transaction.status Examples.paymentConfirmed = "confirmed"
  /\ Transaction.updateStatus Examples.paymentConfirmed "pending"
     = (Ok tt, Examples.payment)
  /\ Transaction.updateStatus Examples.payment "available"
     = (Ok tt, Transaction.with_status Examples.payment "available").
Proof. repeat split. Qed.

(** ** Blocks *)

Lemma hashContent_not_empty (b : Block.t) : Block.hashContent b <> EmptyString.
Proof.
  unfold Block.hashContent. intros H.
  apply append_empty in H as (_ & H).
  apply append_empty in H as (_ & H).
  apply append_empty in H as (_ & H).
  apply append_empty in H as (H & _).
  discriminate H.
Qed.

Lemma calculateHash_ok (b : Block.t) :
  Block.calculateHash b = Ok (SHA256.hex (Block.hashContent b)).
Proof. apply hashSHA256_ok, hashContent_not_empty. Qed.

(** The constructor leaves a block whose stored hash is the hash of its
    fields. *)
Lemma new_consistent (index previousHash timestamp transactions : value)
      (nonce : option Z) (b : Block.t) :
  Block.new index previousHash timestamp transactions nonce = Ok b ->
  Block.calculateHash b = Ok (Block.hash b).
Proof.
  unfold Block.new. destruct transactions; try discriminate.
  intros H. apply bind_ok in H as (root & _ & H).
  rewrite calculateHash_ok in H. cbn [bind] in H. injection H as <-.
  rewrite calculateHash_ok. reflexivity.
Qed.

Lemma mineStep_consistent (b b' : Block.t) :
  Block.mineStep b = Ok b' -> Block.calculateHash b' = Ok (Block.hash b').
Proof.
  unfold Block.mineStep. rewrite calculateHash_ok. cbn [bind].
  intros H. injection H as <-. rewrite calculateHash_ok. reflexivity.
Qed.

Lemma substring_zeros (n : nat) :
  forall s, String.substring 0 n s = JS.zeros n ->
            exists rest, s = (JS.zeros n ++ rest)%string.
Proof.
  induction n as [| n IH]; intros s H.
  - exists s. reflexivity.
  - destruct s as [| c s]; simpl in H; [discriminate H |].
    injection H as -> H. destruct (IH s H) as (rest & ->).
    exists rest. reflexivity.
Qed.

(** The bounded loop and the relation describe the same runs. *)
Lemma mineBlock_sound (fuel : nat) (difficulty : Z) :
  forall b r, Block.mineBlock fuel difficulty b = Some r ->
              Block.mineBlock_returns difficulty b r.
Proof.
  induction fuel as [| fuel IH]; intros b r; simpl;
    destruct (Block.offTarget difficulty b) as [[|] | e] eqn:Hoff; intros H;
    try discriminate H;
    try (injection H as <-; first [ apply Block.mine_found; exact Hoff
                                  | apply Block.mine_cond_throws; exact Hoff ]).
  destruct (Block.mineStep b) as [b' | e] eqn:Hstep.
  - eapply Block.mine_next; [exact Hoff | exact Hstep | apply IH; exact H].
  - injection H as <-. apply Block.mine_step_throws; assumption.
Qed.

Lemma mineBlock_complete (difficulty : Z) (b : Block.t) (r : result Block.t) :
  Block.mineBlock_returns difficulty b r ->
  exists fuel, Block.mineBlock fuel difficulty b = Some r.
Proof.
  induction 1 as [b Hoff | b b' r Hoff Hstep _ (fuel & IH) | b e Hoff | b e Hoff Hstep].
  - exists O. simpl. rewrite Hoff. reflexivity.
  - exists (S fuel). simpl. rewrite Hoff, Hstep. exact IH.
  - exists O. simpl. rewrite Hoff. reflexivity.
  - exists 1%nat. simpl. rewrite Hoff, Hstep. reflexivity.
Qed.

(** C8 - For every block and every difficulty that is not negative, when
    [mineBlock(difficulty)] returns, the stored hash begins with [difficulty]
    characters "0"; and the stored hash, if it was the hash of the fields of
    the block at the call (as the constructor leaves it), is still the hash of
    the fields of the block at the return. *)
Theorem mineBlock_postcondition (difficulty : Z) (b b' : Block.t) :
  0 <= difficulty ->
  Block.mineBlock_returns difficulty b (Ok b') ->
  (exists rest, Block.hash b' = (JS.zeros (Z.to_nat difficulty) ++ rest)%string)
  /\ (Block.calculateHash b = Ok (Block.hash b) ->
      Block.calculateHash b' = Ok (Block.hash b')).
Proof.
  intros Hd Hrun.
  remember (Ok b') as r eqn:Hr.
  induction Hrun as [b Hoff | b b1 r Hoff Hstep _ IH | b e Hoff | b e Hoff Hstep];
    try discriminate Hr.
  - injection Hr as <-. split; [| trivial].
    unfold Block.offTarget in Hoff.
    destruct (negb (JS.array_length_ok (difficulty + 1))); [discriminate Hoff |].
    injection Hoff as Hoff. apply negb_false_iff, String.eqb_eq in Hoff.
    apply substring_zeros. exact Hoff.
  - destruct (IH Hr) as (Hzeros & Hkeeps).
    split; [exact Hzeros |].
    intros _. apply Hkeeps, (mineStep_consistent _ _ Hstep).
Qed.

Lemma mineBlock_postcondition_witness :
  Block.new (VNum 0) (VStr "0") (VNum 1704067200000)
            (VArr [Examples.genesisTransaction]) None = Ok Examples.blockZero
  /\ Block.mineBlock 3 1 Examples.blockZero = Some (Ok Examples.blockZeroMined)
  /\ Block.nonce Examples.blockZeroMined = 3
  /\ Block.hash Examples.blockZeroMined
     = "01fee7ea658a71923f560c92525bf3297665ef6dd70d1831c01be6677b7e73c2"
  /\ (exists rest, Block.hash Examples.blockZeroMined
                   = (JS.zeros (Z.to_nat 1) ++ rest)%string)
  /\ Block.calculateHash Examples.blockZeroMined
     = Ok (Block.hash Examples.blockZeroMined).
Proof.
  assert (Hrun : Block.mineBlock 3 1 Examples.blockZero
                 = Some (Ok Examples.blockZeroMined)) by (vm_compute; reflexivity).
  split; [vm_compute; reflexivity |].
  split; [exact Hrun |].
  split; [reflexivity |].
  split; [reflexivity |].
  destruct (mineBlock_postcondition 1 Examples.blockZero Examples.blockZeroMined)
    as (Hzeros & Hkeeps).
  - lia.
  - apply (mineBlock_sound 3). exact Hrun.
  - split; [exact Hzeros |]. apply Hkeeps. vm_compute. reflexivity.
Defined.

(** C4 - [Block.calculateHash] reads the transactions of the block besides
    the five fields.  The two blocks below come out of the constructor with
    the same index, previous hash, time stamp, Merkle root and nonce (a tree
    over an odd level repeats its last hash, so repeating the last transaction
    keeps the root), and their hashes differ. *)
Theorem block_hash_reads_transactions :
  Block.new (VNum 1) (VStr "0") (VNum 1704067200000)
            (VArr [Examples.ta; Examples.tb; Examples.tc]) None
  = Ok Examples.blockABC
  /\ Block.new (VNum 1) (VStr "0") (VNum 1704067200000)
               (VArr [Examples.ta; Examples.tb; Examples.tc; Examples.tc]) None
     = Ok Examples.blockABCC
  /\ Block.index Examples.blockABC = Block.index Examples.blockABCC
  /\ Block.previousHash Examples.blockABC = Block.previousHash Examples.blockABCC
  /\ Block.timestamp Examples.blockABC = Block.timestamp Examples.blockABCC
  /\ Block.merkleRoot Examples.blockABC = Block.merkleRoot Examples.blockABCC
  /\ Block.nonce Examples.blockABC = Block.nonce Examples.blockABCC
  /\ Block.calculateHash Examples.blockABC = Ok (Block.hash Examples.blockABC)
  /\ Block.calculateHash Examples.blockABCC = Ok (Block.hash Examples.blockABCC)
  /\ Block.hash Examples.blockABC <> Block.hash Examples.blockABCC.
Proof.
  split; [vm_compute; reflexivity |].
  split; [vm_compute; reflexivity |].
  do 5 (split; [reflexivity |]).
  split; [vm_compute; reflexivity |].
  split; [vm_compute; reflexivity |].
  apply hex_neq. vm_compute. reflexivity.
Qed.

(** The hash of a stored block, by contrast, is fixed by the five fields. *)
Lemma stored_block_hash_five_fields (dateToString : Z -> string) (b1 b2 : BlockModel.t) :
  BlockModel.index b1 = BlockModel.index b2 ->
  BlockModel.previousHash b1 = BlockModel.previousHash b2 ->
  BlockModel.timestamp b1 = BlockModel.timestamp b2 ->
  BlockModel.merkleRoot b1 = BlockModel.merkleRoot b2 ->
  BlockModel.nonce b1 = BlockModel.nonce b2 ->
  BlockModel.calculateHash dateToString b1 = BlockModel.calculateHash dateToString b2.
Proof.
  intros Hi Hp Ht Hm Hn. unfold BlockModel.calculateHash, BlockModel.hashData.
  rewrite Hi, Hp, Ht, Hm, Hn. reflexivity.
Qed.

(** ** The ledger *)

(** The constructor of [Blockchain] throws: [createGenesisBlock] hands the
    constructor of [Block] a time stamp, the transactions and "0", in the
    places of index, previous hash and time stamp, and leaves
    [transactions] undefined. *)
Lemma constructor_throws (now : Z) : Blockchain.new now = Throw TypeError.
Proof. reflexivity. Qed.

(** [minePendingTransactions] builds its block the same way: it throws after
    the reward transaction has been queued, and the chain is as before. *)
Lemma minePendingTransactions_throws (fuel : nat) (bc : Blockchain.t)
      (miningRewardAddress : string) (now_tx now_block : Z) :
  exists bc',
    Blockchain.minePendingTransactions fuel bc miningRewardAddress now_tx now_block
    = Some (Throw TypeError, bc')
    /\ Blockchain.chain bc' = Blockchain.chain bc
    /\ Blockchain.pendingTransactions bc'
       = (Blockchain.pendingTransactions bc
          ++ [Transaction.new None miningRewardAddress (Blockchain.miningReward bc)
                              None now_tx])%list.
Proof.
  unfold Blockchain.minePendingTransactions.
  destruct (Blockchain.getLatestBlock _); eexists; repeat split.
Qed.

Lemma eq_str_true (v : value) (s : string) : Value.eq_str v s = true -> v = VStr s.
Proof.
  destruct v; simpl; try discriminate. intros H.
  apply String.eqb_eq in H. subst. reflexivity.
Qed.

Lemma linkedFrom_linked (rest : list Block.t) :
  forall first, Blockchain.linkedFrom first rest = true ->
                Blockchain.linked (first :: rest).
Proof.
  induction rest as [| current rest IH]; intros first H i b p Hi Hb Hp.
  - destruct i as [| [| i]]; [lia | discriminate Hb | discriminate Hb].
  - cbn [Blockchain.linkedFrom] in H.
    apply andb_prop in H as (Hlink & Hrest).
    destruct i as [| [| i]]; [lia | |].
    + cbn in Hb, Hp. injection Hb as <-. injection Hp as <-.
      apply eq_str_true. exact Hlink.
    + apply (IH current Hrest (S i) b p); [lia | exact Hb |].
      cbn [Nat.sub] in Hp |- *. rewrite Nat.sub_0_r. exact Hp.
Qed.

Lemma linkedb_linked (chain : list Block.t) :
  Blockchain.linkedb chain = true -> Blockchain.linked chain.
Proof.
  destruct chain as [| first rest]; simpl; intros H.
  - intros i b p _ Hb. destruct i; discriminate Hb.
  - apply (linkedFrom_linked _ _ H).
Qed.

(** The chains of the examples, block after block out of the constructor. *)
Lemma chains_built :
  Examples.localChain = Examples.extend 4 "local" 1704067201000 [Examples.blockZero]
  /\ Examples.shortChain = Examples.extend 2 "peer" 1704067201000 [Examples.peerZero]
  /\ Examples.longChain = Examples.extend 6 "peer" 1704067201000 [Examples.peerZero]
  /\ Block.new (VNum 0) (VStr "0") (VNum 1704067200999)
               (VArr [Examples.reward "peer" 1704067200999]) None
     = Ok Examples.peerZero
  /\ Block.new (VNum 1) (VStr (Block.hash Examples.peerZero)) (VNum 1704067201000)
               (VArr [Examples.reward "peer" 1704067201000]) None
     = Ok (nth 1 Examples.longChain Examples.noBlock).
Proof. repeat split; vm_compute; reflexivity. Qed.

(** What the spec asks of a candidate chain, checked with the functions of
    the source: every block after the first names the hash of the block
    before it, every block carries the hash and the Merkle root that the
    class recomputes, and its transactions are rewards, which [isValid]
    accepts unsigned. *)
Lemma candidate_is_sound :
  Blockchain.linked Examples.longChain
  /\ Forall (fun b =>
               Block.calculateHash b = Ok (Block.hash b)
               /\ Block.calculateMerkleRoot (Block.transactions b) = Ok (Block.merkleRoot b)
               /\ Forall (fun tx => forall rsa_verify,
                              Transaction.isValid rsa_verify tx = Ok true)
                         (Block.transactions b))
            Examples.longChain.
Proof.
  split; [apply linkedb_linked; vm_compute; reflexivity |].
  repeat constructor; vm_compute; reflexivity.
Qed.

(** C3 - [synchronizeChain] never adopts a candidate.  Its first step is the
    call [this.isValidChain(newChain)] of a method that the class does not
    have, so every call ends in a [TypeError] and leaves the ledger as it
    was.  So it is for the two cases of the spec: against a local chain of 5
    blocks, the sound candidate of 7 blocks is not adopted, and the candidate
    of 3 blocks ends in the exception, not in the answer [false]. *)
Theorem synchronizeChain_never_adopts :
  (forall bc newChain,
      Blockchain.synchronizeChain bc newChain = (Throw TypeError, bc))
  /\ List.length (Blockchain.chain Examples.localLedger) = 5%nat
  /\ List.length Examples.longChain = 7%nat
  /\ Blockchain.linked Examples.longChain
  /\ Forall (fun b =>
               Block.calculateHash b = Ok (Block.hash b)
               /\ Block.calculateMerkleRoot (Block.transactions b) = Ok (Block.merkleRoot b)
               /\ Forall (fun tx => forall rsa_verify,
                              Transaction.isValid rsa_verify tx = Ok true)
                         (Block.transactions b))
            Examples.longChain
  /\ Blockchain.synchronizeChain Examples.localLedger Examples.longChain
     = (Throw TypeError, Examples.localLedger)
  /\ Blockchain.chain
       (snd (Blockchain.synchronizeChain Examples.localLedger Examples.longChain))
     <> Examples.longChain
  /\ List.length Examples.shortChain = 3%nat
  /\ Blockchain.synchronizeChain Examples.localLedger Examples.shortChain
     = (Throw TypeError, Examples.localLedger).
Proof.
  split; [intros bc newChain; reflexivity |].
  do 2 (split; [reflexivity |]).
  split; [exact (proj1 candidate_is_sound) |].
  split; [exact (proj2 candidate_is_sound) |].
  split; [reflexivity |].
  split; [| split; reflexivity].
  cbn [Blockchain.synchronizeChain Blockchain.isValidChain snd].
  intros H. apply (f_equal (@List.length Block.t)) in H. vm_compute in H. discriminate H.
Qed.

(** C1 - No chain is ever built.  The constructor of the ledger throws
    while it makes the genesis block, so no state exists whose chain starts
    with that block; [minePendingTransactions] and [synchronizeChain] end in
    a [TypeError] on every ledger and leave its chain as it was, so that no
    block is ever appended, linked or not. *)
Theorem ledger_is_never_built :
  (forall now, Blockchain.createGenesisBlock now = Throw TypeError)
  /\ (forall now, Blockchain.new now = Throw TypeError)
  /\ (forall fuel bc miningRewardAddress now_tx now_block,
        exists bc',
          Blockchain.minePendingTransactions fuel bc miningRewardAddress now_tx now_block
          = Some (Throw TypeError, bc')
          /\ Blockchain.chain bc' = Blockchain.chain bc)
  /\ (forall bc newChain,
        fst (Blockchain.synchronizeChain bc newChain) = Throw TypeError
        /\ Blockchain.chain (snd (Blockchain.synchronizeChain bc newChain))
           = Blockchain.chain bc).
Proof.
  split; [intros now; reflexivity |].
  split; [intros now; reflexivity |].
  split.
  - intros fuel bc miningRewardAddress now_tx now_block.
    destruct (minePendingTransactions_throws fuel bc miningRewardAddress now_tx now_block)
      as (bc' & Hrun & Hchain & _).
    exists bc'. split; assumption.
  - intros bc newChain. split; reflexivity.
Qed.

(** ** The service *)

Lemma proofOfWork_transactions (renderDate : Z -> string) (fuel : nat)
      (s : BlockchainService.t) :
  forall block block',
    BlockchainService.proofOfWork renderDate fuel s block = Some (Ok block') ->
    BlockModel.transactions block' = BlockModel.transactions block.
Proof.
  induction fuel as [| fuel IH]; intros block block'; simpl;
    destruct (negb (JS.array_length_ok (BlockchainService.difficulty s + 1)));
    try discriminate;
    destruct (String.prefix _ (BlockModel.hash block)); intros H;
    try discriminate H; try (injection H as <-; reflexivity).
  apply IH in H. exact H.
Qed.

Lemma arrive_miningReward (requests : list TransactionModel.t) :
  forall s, BlockchainService.miningReward (BlockchainService.arrive s requests)
            = BlockchainService.miningReward s.
Proof.
  unfold BlockchainService.arrive.
  induction requests as [| tx requests IH]; intros s; cbn [fold_left].
  - reflexivity.
  - rewrite IH. unfold BlockchainService.addTransaction.
    destruct (_ || _); [reflexivity |]. destruct (negb _); reflexivity.
Qed.

(** Every call of [minePendingTransactions] that completes leaves the queue
    empty, and the block it mined holds the transactions that were queued
    when the block was built: whatever was submitted while the block was being
    saved is in neither. *)
Lemma completed_mining_empties_queue
      (renderDoc : TransactionModel.t -> string) (renderDate : Z -> string)
      (fuel : nat) (s : BlockchainService.t) (miningRewardAddress : string)
      (w : BlockchainService.world) (e : BlockchainService.ending) :
  BlockchainService.minePendingTransactions renderDoc renderDate fuel s
                                            miningRewardAddress w = Some e ->
  BlockchainService.outcome e = Ok tt ->
  BlockchainService.pendingTransactions (BlockchainService.after e) = []
  /\ exists block,
      BlockchainService.minedBlock e = Some block
      /\ BlockModel.transactions block
         = map TransactionModel._id
               (BlockchainService.pendingTransactions
                  (BlockchainService.arrive s (BlockchainService.during_latest w))
                ++ [TransactionModel.mk (BlockchainService.rewardId w) None
                                        miningRewardAddress
                                        (BlockchainService.miningReward s) None
                                        (BlockchainService.now_reward w) false])%list.
Proof.
  unfold BlockchainService.minePendingTransactions.
  destruct (BlockchainService.pendingTransactions s) as [| tx0 txs] eqn:Hpending.
  { intros H. injection H as <-. discriminate. }
  pose proof (arrive_miningReward (BlockchainService.during_latest w) s) as Hreward.
  rewrite Hreward.
  destruct (BlockchainService.latestBlock w) as [latest | err];
    [| intros H; injection H as <-; discriminate].
  destruct (MerkleTree.new _) as [merkleTree | err]; [| intros H; injection H as <-; discriminate].
  destruct latest as [latest |]; [| intros H; injection H as <-; discriminate].
  destruct (BlockchainService.proofOfWork _ _ _ _) as [[block | err] |] eqn:Hpow;
    [| intros H; injection H as <-; discriminate | discriminate].
  apply proofOfWork_transactions in Hpow. cbn in Hpow.
  destruct (BlockchainService.saveOutcome w) as [[] | err];
    intros H; injection H as <-; [| discriminate].
  intros _. split; [reflexivity |].
  exists block. split; [reflexivity | exact Hpow].
Qed.

(** C7 - A transaction submitted while the mined block is being saved is
    lost.  The service holds one pending transaction; the call mines it with
    the reward into a block; the second transaction, which [addTransaction]
    accepts, is queued during [await this.safeBlockSave(newBlock)]; when the
    call completes the queue is empty and the block does not hold it. *)
Theorem mining_drops_late_submission :
  exists block,
    BlockchainService.minePendingTransactions
      Examples.renderDoc Examples.renderDate 13
      Examples.service "miner" Examples.lateSubmission
    = Some (BlockchainService.Ending (Ok tt) (BlockchainService.mk 1 100 [])
                                     (Some block))
    /\ BlockModel.transactions block = ["id-1"; "id-reward"]
    /\ ~ In (TransactionModel._id Examples.doc2) (BlockModel.transactions block)
    /\ BlockchainService.during_save Examples.lateSubmission = [Examples.doc2]
    /\ fst (BlockchainService.addTransaction Examples.service Examples.doc2) = Ok tt.
Proof.
  eexists.
  split; [vm_compute; reflexivity |].
  split; [reflexivity |].
  split; [| split; reflexivity].
  cbn. intros [H | [H | []]]; discriminate H.
Qed.

(** * Further properties *)

(** ** Digests *)

Lemma be_bytes_length (n : nat) : forall x, List.length (SHA256.be_bytes n x) = n.
Proof.
  induction n as [| n IH]; intros x; simpl; [reflexivity |].
  rewrite length_app, IH. simpl. lia.
Qed.

Lemma hex_of_bytes_length (bs : list Z) :
  String.length (SHA256.hex_of_bytes bs) = (2 * List.length bs)%nat.
Proof. induction bs as [| b bs IH]; simpl; [reflexivity | rewrite IH; lia]. Qed.

Lemma flat_map_be_bytes_length (ws : list Z) :
  List.length (flat_map (SHA256.be_bytes 4) ws) = (4 * List.length ws)%nat.
Proof.
  induction ws as [| w ws IH]; [reflexivity |].
  cbn [flat_map]. rewrite length_app, be_bytes_length, IH. simpl. lia.
Qed.

(** A digest has 64 characters. *)
Lemma hex_length (s : string) : String.length (SHA256.hex s) = 64%nat.
Proof.
  unfold SHA256.hex. rewrite hex_of_bytes_length, flat_map_be_bytes_length.
  unfold SHA256.digest_words. rewrite blocks_length; reflexivity.
Qed.

Lemma append_not_empty (a b : string) : a <> EmptyString -> (a ++ b)%string <> EmptyString.
Proof. intros Ha H. apply append_empty in H as (H & _). contradiction. Qed.

(** ** The Merkle tree, continued *)

Lemma mapM_hash_ok (transactions : list string) :
  Forall nonEmpty transactions ->
  mapM Crypto.hashSHA256 transactions = Ok (map SHA256.hex transactions).
Proof.
  induction 1 as [| t ts Ht _ IH]; [reflexivity |].
  cbn [mapM map]. rewrite (hashSHA256_ok _ Ht). cbn [bind]. rewrite IH. reflexivity.
Qed.

Lemma mapM_hash_throws (transactions : list string) :
  In EmptyString transactions ->
  mapM Crypto.hashSHA256 transactions = Throw (Error "Data is required for hashing").
Proof.
  induction transactions as [| t ts IH]; intros Hin; [contradiction |].
  cbn [mapM]. destruct (String.eqb_spec t EmptyString) as [-> | Hne].
  - reflexivity.
  - rewrite (hashSHA256_ok _ Hne). cbn [bind].
    rewrite IH; [reflexivity |]. destruct Hin as [E | Hin]; [congruence | exact Hin].
Qed.

Lemma not_in_empty_forall (transactions : list string) :
  ~ In EmptyString transactions -> Forall nonEmpty transactions.
Proof.
  intros Hn. apply Forall_forall. intros t Ht E. apply Hn. rewrite <- E. exact Ht.
Qed.

Lemma map_hex_nonEmpty (transactions : list string) :
  Forall nonEmpty (map SHA256.hex transactions).
Proof. apply Forall_forall. intros h Hh. apply in_map_iff in Hh as (t & <- & _). apply hex_not_empty. Qed.

(** On hashes that are not empty a pass of [buildTree] is [getNextLayer]. *)
Lemma newLevel_getNextLayer (n : nat) :
  forall hashes,
    (List.length hashes <= n)%nat -> Forall nonEmpty hashes ->
    MerkleTree.newLevel hashes = Ok (MerkleTree2.getNextLayer hashes).
Proof.
  induction n as [| n IH]; intros hashes Hn Hne.
  - destruct hashes; [reflexivity | simpl in Hn; lia].
  - destruct hashes as [| l [| r rest]]; [reflexivity | |].
    + inversion Hne as [| ? ? Hl _]; subst.
      cbn [MerkleTree.newLevel MerkleTree2.getNextLayer].
      rewrite (hashSHA256_ok _ (append_not_empty _ _ Hl)). reflexivity.
    + inversion Hne as [| ? ? Hl Hrest]; subst.
      inversion Hrest as [| ? ? Hr Hrest']; subst.
      cbn [MerkleTree.newLevel MerkleTree2.getNextLayer].
      destruct (String.eqb_spec r EmptyString) as [E | _]; [contradiction |].
      rewrite (hashSHA256_ok _ (append_not_empty _ _ Hl)). cbn [bind].
      rewrite IH; [reflexivity | simpl in Hn; lia | exact Hrest'].
Qed.

Lemma getNextLayer_nonEmpty (n : nat) :
  forall layer, (List.length layer <= n)%nat ->
                Forall nonEmpty (MerkleTree2.getNextLayer layer).
Proof.
  induction n as [| n IH]; intros layer Hn.
  - destruct layer; [constructor | simpl in Hn; lia].
  - destruct layer as [| l [| r rest]]; cbn [MerkleTree2.getNextLayer].
    + constructor.
    + constructor; [apply hex_not_empty | constructor].
    + constructor; [apply hex_not_empty | apply IH; simpl in Hn; lia].
Qed.

Lemma getNextLayer_length (n : nat) :
  forall layer, (List.length layer <= n)%nat ->
                (2 * List.length (MerkleTree2.getNextLayer layer) = List.length layer
                 \/ 2 * List.length (MerkleTree2.getNextLayer layer)
                    = S (List.length layer))%nat.
Proof.
  induction n as [| n IH]; intros layer Hn.
  - destruct layer; [left; reflexivity | simpl in Hn; lia].
  - destruct layer as [| l [| r rest]]; cbn [MerkleTree2.getNextLayer List.length].
    + left. reflexivity.
    + right. reflexivity.
    + destruct (IH rest) as [E | E]; [simpl in Hn; lia | lia | lia].
Qed.

Lemma buildTree_rec_loop (fuel : nat) :
  forall hashes,
    Forall nonEmpty hashes ->
    (1 <= List.length hashes <= S fuel)%nat ->
    MerkleTree.buildTree_rec fuel hashes = Ok (MerkleTree2.buildTree_loop fuel hashes).
Proof.
  induction fuel as [| fuel IH]; intros hashes Hne Hlen.
  - destruct hashes as [| h [| h' rest]]; simpl in Hlen; try lia. reflexivity.
  - destruct hashes as [| h [| h' rest]]; [simpl in Hlen; lia | reflexivity |].
    cbn [MerkleTree.buildTree_rec].
    rewrite (newLevel_getNextLayer _ _ (Nat.le_refl _) Hne). cbn [bind].
    change (MerkleTree2.buildTree_loop (S fuel) (h :: h' :: rest))
      with (MerkleTree2.buildTree_loop fuel (MerkleTree2.getNextLayer (h :: h' :: rest))).
    apply IH.
    + apply (getNextLayer_nonEmpty _ _ (Nat.le_refl _)).
    + destruct (getNextLayer_length _ (h :: h' :: rest) (Nat.le_refl _)) as [E | E];
        cbn [List.length] in *; lia.
Qed.

(** X1 - The two Merkle tree classes build the same tree: on a level of
    hashes that is not empty and holds no empty string, [buildTree] of the
    first class returns what [buildTree] of the second returns. *)
Theorem buildTree_agree (hashes : list string) :
  hashes <> [] -> Forall nonEmpty hashes ->
  MerkleTree.buildTree hashes = Ok (MerkleTree2.buildTree hashes).
Proof.
  intros Hne Hall. apply buildTree_rec_loop; [exact Hall |].
  destruct hashes; [contradiction | simpl; lia].
Qed.

Lemma buildTree_agree_witness :
  MerkleTree.buildTree [SHA256.hex "a"; SHA256.hex "b"; SHA256.hex "c"]
  = Ok (MerkleTree2.buildTree [SHA256.hex "a"; SHA256.hex "b"; SHA256.hex "c"]).
Proof.
  apply (buildTree_agree [SHA256.hex "a"; SHA256.hex "b"; SHA256.hex "c"]).
  - discriminate.
  - repeat constructor; apply hex_not_empty.
Defined.

Lemma getNextLayer_digests (n : nat) :
  forall layer, (List.length layer <= n)%nat ->
                Forall (fun h => String.length h = 64%nat) (MerkleTree2.getNextLayer layer).
Proof.
  induction n as [| n IH]; intros layer Hn.
  - destruct layer; [constructor | simpl in Hn; lia].
  - destruct layer as [| l [| r rest]]; cbn [MerkleTree2.getNextLayer].
    + constructor.
    + constructor; [apply hex_length | constructor].
    + constructor; [apply hex_length | apply IH; simpl in Hn; lia].
Qed.

Lemma buildTree_loop_digests (fuel : nat) :
  forall layer,
    Forall (fun h => String.length h = 64%nat) layer ->
    Forall (fun h => String.length h = 64%nat) (MerkleTree2.buildTree_loop fuel layer).
Proof.
  induction fuel as [| fuel IH]; intros layer H; simpl;
    destruct (1 <? List.length layer)%nat; try exact H.
  apply IH. apply (getNextLayer_digests _ _ (Nat.le_refl _)).
Qed.

(** X2 - The constructor of [MerkleTree]: it throws on the empty array, it
    throws on an array that holds an empty string, and on every other array
    it builds a tree whose leaves are the digests of the transactions, in
    their order, and whose root is one string of 64 characters. *)
Theorem merkle_constructor_outcomes :
  MerkleTree.new [] = Throw (Error "Transactions must be an array and cannot be empty.")
  /\ (forall transactions,
        In EmptyString transactions ->
        MerkleTree.new transactions = Throw (Error "Data is required for hashing"))
  /\ (forall transactions,
        transactions <> [] -> ~ In EmptyString transactions ->
        exists root,
          MerkleTree.new transactions
          = Ok (MerkleTree.mk (map SHA256.hex transactions) [root])
          /\ String.length root = 64%nat).
Proof.
  split; [reflexivity |]. split.
  - intros transactions Hin. unfold MerkleTree.new.
    destruct transactions as [| t ts]; [contradiction |].
    rewrite (mapM_hash_throws _ Hin). reflexivity.
  - intros transactions Hne Hnin.
    pose proof (mapM_hash_ok _ (not_in_empty_forall _ Hnin)) as Hleaves.
    assert (Hl : map SHA256.hex transactions <> []) by (destruct transactions; [contradiction | discriminate]).
    assert (Htree : MerkleTree.buildTree (map SHA256.hex transactions)
                    = Ok (MerkleTree2.buildTree (map SHA256.hex transactions))).
    { apply buildTree_rec_loop; [apply map_hex_nonEmpty |].
      destruct transactions; [contradiction | simpl; lia]. }
    pose proof (buildTree_singleton _ _ Htree) as Hone.
    assert (Hdig : Forall (fun h => String.length h = 64%nat)
                          (MerkleTree2.buildTree (map SHA256.hex transactions))).
    { apply buildTree_loop_digests. apply Forall_forall. intros h Hh.
      apply in_map_iff in Hh as (t & <- & _). apply hex_length. }
    destruct (MerkleTree2.buildTree (map SHA256.hex transactions)) as [| root [| ? ?]];
      try discriminate Hone.
    exists root. split; [| inversion Hdig; assumption].
    unfold MerkleTree.new. destruct transactions as [| t ts]; [contradiction |].
    rewrite Hleaves. cbn [bind]. rewrite Htree. reflexivity.
Qed.

Lemma indexOf_none (hash : string) (hashes : list string) :
  ~ In hash hashes -> MerkleTree.indexOf hash hashes = None.
Proof.
  induction hashes as [| h rest IH]; intros Hn; [reflexivity |].
  cbn [MerkleTree.indexOf]. destruct (String.eqb_spec h hash) as [E | _].
  - exfalso. apply Hn. left. exact E.
  - rewrite IH; [reflexivity |]. intros Hin. apply Hn. right. exact Hin.
Qed.

Lemma indexOf_some (hash : string) (hashes : list string) (i : nat) :
  MerkleTree.indexOf hash hashes = Some i -> nth_error hashes i = Some hash.
Proof.
  revert i. induction hashes as [| h rest IH]; intros i; [discriminate |].
  cbn [MerkleTree.indexOf]. destruct (String.eqb_spec h hash) as [E | _].
  - intros H. injection H as <-. rewrite E. reflexivity.
  - destruct (MerkleTree.indexOf hash rest) as [j |]; [| discriminate].
    intros H. injection H as <-. apply IH. reflexivity.
Qed.

(** X3 - [generateProof] refuses what is not in the tree: it throws the
    hashing error on the empty string, and the not-found error on every
    other transaction whose digest is not one of the leaves. *)
Theorem generateProof_refuses (mt : MerkleTree.t) (transaction : string) :
  (transaction = EmptyString ->
   MerkleTree.generateProof mt transaction = Throw (Error "Data is required for hashing"))
  /\ (transaction <> EmptyString ->
      ~ In (SHA256.hex transaction) (MerkleTree.leaves mt) ->
      MerkleTree.generateProof mt transaction
      = Throw (Error "Transaction not found in the Merkle Tree.")).
Proof.
  unfold MerkleTree.generateProof. split.
  - intros ->. reflexivity.
  - intros Hne Hnin. rewrite (hashSHA256_ok _ Hne). cbn [bind].
    rewrite (indexOf_none _ _ Hnin). reflexivity.
Qed.

Lemma proofLoop_first_pass (fuel : nat) (level : list string) (index : nat)
      (proof result : list string) :
  (1 <? List.length level)%nat = true ->
  MerkleTree.proofLoop (S (S fuel)) level index proof = Ok result ->
  exists siblingIndex,
    (siblingIndex < List.length level \/ siblingIndex = index)%nat
    /\ result = (proof ++ [nth siblingIndex level EmptyString])%list.
Proof.
  intros Hlong H. cbn [MerkleTree.proofLoop] in H. rewrite Hlong in H.
  set (candidate := if Nat.even index then (index + 1)%nat else (index - 1)%nat) in H.
  set (siblingIndex := if (candidate <? List.length level)%nat then candidate else index) in H.
  apply bind_ok in H as (level' & Hlevel & H).
  apply buildTree_singleton in Hlevel. rewrite Hlevel in H. cbn in H.
  injection H as <-. exists siblingIndex. split; [| reflexivity].
  subst siblingIndex. destruct (candidate <? List.length level)%nat eqn:E.
  - left. apply Nat.ltb_lt. exact E.
  - right. reflexivity.
Qed.

(** X4 - Whatever the size of the tree, a proof that [generateProof] returns
    is empty when the tree has one leaf and holds exactly one hash otherwise,
    and that hash is one of the leaves, never an inner node. *)
Theorem generateProof_one_leaf_hash (mt : MerkleTree.t) (transaction : string)
        (proof : list string) :
  MerkleTree.generateProof mt transaction = Ok proof ->
  List.length proof = (if (1 <? List.length (MerkleTree.leaves mt))%nat then 1 else 0)%nat
  /\ forall sibling, In sibling proof -> In sibling (MerkleTree.leaves mt).
Proof.
  unfold MerkleTree.generateProof. intros H.
  apply bind_ok in H as (h & _ & H).
  destruct (MerkleTree.indexOf h (MerkleTree.leaves mt)) as [index |] eqn:Hindex;
    [| discriminate H].
  apply indexOf_some in Hindex.
  assert (Hlt : (index < List.length (MerkleTree.leaves mt))%nat).
  { apply nth_error_Some. rewrite Hindex. discriminate. }
  destruct (1 <? List.length (MerkleTree.leaves mt))%nat eqn:Hlong.
  - destruct (List.length (MerkleTree.leaves mt)) as [| [| n]] eqn:Hn;
      [discriminate Hlong | discriminate Hlong |].
    rewrite <- Hn in Hlong, Hlt.
    destruct (proofLoop_first_pass _ _ _ _ _ Hlong H) as (j & Hj & ->).
    split; [reflexivity |]. intros sibling [<- | []]. apply nth_In.
    destruct Hj as [Hj | ->]; assumption.
  - destruct (List.length (MerkleTree.leaves mt)) as [| n] eqn:Hn; [lia |].
    cbn [MerkleTree.proofLoop] in H. rewrite Hn, Hlong in H.
    injection H as <-. split; [reflexivity | intros ? []].
Qed.

Lemma generateProof_one_leaf_hash_witness :
  exists mt proof,
    MerkleTree.new ["a"; "b"; "c"; "d"; "e"] = Ok mt
    /\ MerkleTree.generateProof mt "d" = Ok proof
    /\ List.length proof = 1%nat
    /\ forall sibling, In sibling proof -> In sibling (MerkleTree.leaves mt).
Proof.
  eexists. eexists.
  split; [vm_compute; reflexivity |].
  match goal with |- ?G1 /\ _ => assert (H : G1) by (vm_compute; reflexivity) end.
  split; [exact H |].
  exact (generateProof_one_leaf_hash _ _ _ H).
Defined.

Lemma ltb_false_both (x y : string) :
  (x <? y)%string = false -> (y <? x)%string = false -> x = y.
Proof.
  unfold String.ltb. intros Hxy Hyx.
  apply String.compare_eq_iff.
  rewrite (String.compare_antisym y x) in Hyx.
  destruct (String.compare x y); [reflexivity | discriminate Hxy | discriminate Hyx].
Qed.

(** X5 - On a tree of two transactions whose digests are in ascending order
    (the second is not below the first) the round trip holds: the proof
    generated for either transaction verifies against the root. *)
Theorem two_leaves_in_order_verify (a b : string) (mt : MerkleTree.t) :
  MerkleTree.new [a; b] = Ok mt ->
  (SHA256.hex b <? SHA256.hex a)%string = false ->
  (exists proof, MerkleTree.generateProof mt a = Ok proof
                 /\ MerkleTree.verifyProof proof (MerkleTree.getRoot mt) a = Ok true)
  /\ (exists proof, MerkleTree.generateProof mt b = Ok proof
                    /\ MerkleTree.verifyProof proof (MerkleTree.getRoot mt) b = Ok true).
Proof.
  intros Hnew Horder.
  unfold MerkleTree.new in Hnew. cbn [mapM] in Hnew.
  apply bind_ok in Hnew as (leaves & Hleaves & Hnew).
  apply bind_ok in Hleaves as (ha & Ha & Hleaves).
  apply bind_ok in Hleaves as (rest & Hb & Hleaves).
  apply bind_ok in Hb as (hb & Hb & Hrest).
  cbn in Hrest. injection Hrest as <-. injection Hleaves as <-.
  apply bind_ok in Hnew as (tree & Htree & Hnew). injection Hnew as <-.
  destruct (hashSHA256_inv _ _ Ha) as (-> & Hane).
  destruct (hashSHA256_inv _ _ Hb) as (-> & Hbne).
  set (ha := SHA256.hex a) in *. set (hb := SHA256.hex b) in *.
  assert (Hha : ha <> EmptyString) by apply hex_not_empty.
  assert (Hhb : hb <> EmptyString) by apply hex_not_empty.
  assert (Hpair : Crypto.hashSHA256 (ha ++ hb) = Ok (SHA256.hex (ha ++ hb)))
    by (apply hashSHA256_ok, append_not_empty; exact Hha).
  assert (Hbuild : MerkleTree.buildTree [ha; hb] = Ok [SHA256.hex (ha ++ hb)]).
  { unfold MerkleTree.buildTree. cbn [List.length MerkleTree.buildTree_rec MerkleTree.newLevel].
    destruct (String.eqb_spec hb EmptyString) as [E | _]; [contradiction |].
    rewrite Hpair. reflexivity. }
  rewrite Hbuild in Htree. injection Htree as <-.
  unfold MerkleTree.generateProof, MerkleTree.verifyProof, MerkleTree.getRoot.
  cbn [MerkleTree.leaves MerkleTree.tree rev app].
  rewrite Ha, Hb. cbn [bind MerkleTree.indexOf]. rewrite String.eqb_refl.
  split.
  - exists [hb]. split.
    + cbn [List.length MerkleTree.proofLoop Nat.ltb Nat.leb Nat.even Nat.add nth
           Nat.div Nat.divmod fst app].
      rewrite Hbuild. reflexivity.
    + cbn [MerkleTree.foldM]. unfold MerkleTree.verifyStep.
      destruct (ha <? hb)%string eqn:Hlt; cbv beta iota zeta.
      * rewrite Hpair. cbn. rewrite String.eqb_refl. reflexivity.
      * pose proof (ltb_false_both _ _ Hlt Horder) as E.
        rewrite <- E in Hpair |- *.
        rewrite Hpair. cbn. rewrite String.eqb_refl. reflexivity.
  - destruct (String.eqb_spec ha hb) as [E | Hne].
    + exists [hb]. split.
      * cbn [List.length MerkleTree.proofLoop Nat.ltb Nat.leb Nat.even Nat.add nth
             Nat.div Nat.divmod fst app].
        rewrite Hbuild. reflexivity.
      * cbn [MerkleTree.foldM]. unfold MerkleTree.verifyStep.
        rewrite <- E in Horder, Hpair |- *.
        rewrite Horder. cbv beta iota zeta. rewrite Hpair. cbn. rewrite String.eqb_refl. reflexivity.
    + rewrite String.eqb_refl. exists [ha]. split.
      * cbn [List.length MerkleTree.proofLoop Nat.ltb Nat.leb Nat.even Nat.sub
             Nat.add nth Nat.div Nat.divmod fst app].
        rewrite Hbuild. reflexivity.
      * cbn [MerkleTree.foldM]. unfold MerkleTree.verifyStep.
        rewrite Horder. cbv beta iota zeta. rewrite Hpair. cbn. rewrite String.eqb_refl. reflexivity.
Qed.

Lemma two_leaves_in_order_verify_witness :
  exists mt,
    MerkleTree.new ["b"; "a"] = Ok mt
    /\ (exists proof, MerkleTree.generateProof mt "b" = Ok proof
                      /\ MerkleTree.verifyProof proof (MerkleTree.getRoot mt) "b" = Ok true)
    /\ (exists proof, MerkleTree.generateProof mt "a" = Ok proof
                      /\ MerkleTree.verifyProof proof (MerkleTree.getRoot mt) "a" = Ok true).
Proof.
  eexists.
  match goal with |- ?G1 /\ _ => assert (H : G1) by (vm_compute; reflexivity) end.
  split; [exact H |].
  apply (two_leaves_in_order_verify "b" "a" _ H). vm_compute. reflexivity.
Defined.

(** ** The Merkle root of a block *)

Lemma getNextLayer_duplicate_last (n : nat) :
  forall layer h,
    List.length layer = (2 * n)%nat ->
    MerkleTree2.getNextLayer (layer ++ [h]) = MerkleTree2.getNextLayer (layer ++ [h; h]).
Proof.
  induction n as [| n IH]; intros layer h Hlen.
  - destruct layer; [reflexivity | discriminate Hlen].
  - destruct layer as [| l [| r rest]]; [discriminate Hlen | simpl in Hlen; lia |].
    cbn [app MerkleTree2.getNextLayer]. f_equal. apply IH. simpl in Hlen. lia.
Qed.

Lemma buildTree_loop_fuel (fuel : nat) :
  forall fuel' layer,
    (List.length layer <= S fuel)%nat -> (fuel <= fuel')%nat ->
    MerkleTree2.buildTree_loop fuel' layer = MerkleTree2.buildTree_loop fuel layer.
Proof.
  induction fuel as [| fuel IH]; intros fuel' layer Hlen Hle.
  - destruct layer as [| h [| h' rest]]; [| | simpl in Hlen; lia];
      destruct fuel'; reflexivity.
  - destruct fuel' as [| fuel']; [lia |].
    cbn [MerkleTree2.buildTree_loop].
    destruct (1 <? List.length layer)%nat; [| reflexivity].
    apply IH; [| lia].
    destruct (getNextLayer_length _ layer (Nat.le_refl _)); lia.
Qed.

Lemma buildTree_loop_one (fuel : nat) :
  forall layer,
    (1 <= List.length layer <= S fuel)%nat ->
    List.length (MerkleTree2.buildTree_loop fuel layer) = 1%nat.
Proof.
  induction fuel as [| fuel IH]; intros layer Hlen.
  - destruct layer as [| h [| h' rest]]; simpl in Hlen; try lia. reflexivity.
  - destruct layer as [| h [| h' rest]]; [simpl in Hlen; lia | reflexivity |].
    change (MerkleTree2.buildTree_loop (S fuel) (h :: h' :: rest))
      with (MerkleTree2.buildTree_loop fuel (MerkleTree2.getNextLayer (h :: h' :: rest))).
    apply IH.
    destruct (getNextLayer_length _ (h :: h' :: rest) (Nat.le_refl _)) as [E | E];
      cbn [List.length] in *; lia.
Qed.

(** The tree over a level of digests is one digest. *)
Lemma buildTree_root (hashes : list string) :
  hashes <> [] ->
  Forall (fun h => String.length h = 64%nat) hashes ->
  exists root, MerkleTree2.buildTree hashes = [root] /\ String.length root = 64%nat.
Proof.
  intros Hne Hdig.
  assert (Hone : List.length (MerkleTree2.buildTree hashes) = 1%nat).
  { apply buildTree_loop_one. destruct hashes; [contradiction | simpl; lia]. }
  pose proof (buildTree_loop_digests (List.length hashes) hashes Hdig) as Hd.
  fold (MerkleTree2.buildTree hashes) in Hd.
  destruct (MerkleTree2.buildTree hashes) as [| root [| ? ?]]; try discriminate Hone.
  exists root. split; [reflexivity | inversion Hd; assumption].
Qed.

Lemma map_hex_digests {A : Type} (f : A -> string) (xs : list A) :
  Forall (fun h => String.length h = 64%nat) (map (fun x => SHA256.hex (f x)) xs).
Proof.
  apply Forall_forall. intros h Hh. apply in_map_iff in Hh as (x & <- & _). apply hex_length.
Qed.

Lemma map_digest_nonEmpty {A : Type} (f : A -> string) (xs : list A) :
  Forall nonEmpty (map (fun x => SHA256.hex (f x)) xs).
Proof.
  apply Forall_forall. intros h Hh. apply in_map_iff in Hh as (x & <- & _). apply hex_not_empty.
Qed.

Lemma merkle_new_ok (transactions : list string) :
  transactions <> [] -> Forall nonEmpty transactions ->
  MerkleTree.new transactions
  = Ok (MerkleTree.mk (map SHA256.hex transactions)
                      (MerkleTree2.buildTree (map SHA256.hex transactions))).
Proof.
  intros Hne Hall. unfold MerkleTree.new.
  destruct transactions as [| t ts]; [contradiction |].
  rewrite (mapM_hash_ok _ Hall). cbn [bind].
  unfold MerkleTree.buildTree. rewrite buildTree_rec_loop.
  - reflexivity.
  - apply map_hex_nonEmpty.
  - simpl. lia.
Qed.

Lemma stringify_not_empty (tx : Transaction.t) : Transaction.stringify tx <> EmptyString.
Proof. unfold Transaction.stringify. discriminate. Qed.

Lemma mapM_stringify (txs : list Transaction.t) :
  mapM (fun tx => Crypto.hashSHA256 (Transaction.stringify tx)) txs
  = Ok (map (fun tx => SHA256.hex (Transaction.stringify tx)) txs).
Proof.
  induction txs as [| tx txs IH]; [reflexivity |].
  cbn [mapM map]. rewrite (hashSHA256_ok _ (stringify_not_empty tx)). cbn [bind].
  rewrite IH. reflexivity.
Qed.

Lemma calculateMerkleRoot_ok (txs : list Transaction.t) :
  txs <> [] ->
  exists root,
    MerkleTree2.buildTree (blockLeaves txs) = [root]
    /\ String.length root = 64%nat
    /\ Block.calculateMerkleRoot txs = Ok (VStr root).
Proof.
  intros Hne.
  assert (Hl : blockLeaves txs <> []) by (destruct txs; [contradiction | discriminate]).
  destruct (buildTree_root _ Hl (map_hex_digests (fun h => h) _)) as (root & Hroot & Hlen).
  exists root. split; [exact Hroot |]. split; [exact Hlen |].
  unfold Block.calculateMerkleRoot. rewrite mapM_stringify. cbn [bind].
  rewrite merkle_new_ok.
  - cbn [bind]. unfold MerkleTree.getRoot. cbn [MerkleTree.tree].
    fold (blockLeaves txs). rewrite Hroot. reflexivity.
  - destruct txs; [contradiction | discriminate].
  - apply map_digest_nonEmpty.
Qed.

(** X6 - The Merkle root of a block does not tell a last transaction from a
    last transaction entered twice: after an even, positive number of
    transactions, one more transaction and the same transaction twice give
    the same root. *)
Theorem calculateMerkleRoot_duplicate_last (txs : list Transaction.t) (tx : Transaction.t) :
  txs <> [] -> Nat.even (List.length txs) = true ->
  exists root,
    Block.calculateMerkleRoot (txs ++ [tx]) = Ok (VStr root)
    /\ Block.calculateMerkleRoot (txs ++ [tx; tx]) = Ok (VStr root).
Proof.
  intros Hne Heven.
  apply Nat.even_spec in Heven as (n & Hn).
  destruct (calculateMerkleRoot_ok (txs ++ [tx])) as (r1 & H1 & _ & Hr1);
    [destruct txs; discriminate |].
  destruct (calculateMerkleRoot_ok (txs ++ [tx; tx])) as (r2 & H2 & _ & Hr2);
    [destruct txs; discriminate |].
  exists r1. split; [exact Hr1 |]. rewrite Hr2. f_equal. f_equal.
  assert (E : [r2] = [r1]); [| injection E; trivial].
  rewrite <- H1, <- H2. unfold blockLeaves. rewrite !map_app. cbn [map].
  set (h := SHA256.hex (SHA256.hex (Transaction.stringify tx))).
  set (layer := map SHA256.hex (map (fun tx => SHA256.hex (Transaction.stringify tx)) txs)).
  assert (Hlayer : List.length layer = (2 * n)%nat) by (unfold layer; rewrite !length_map; exact Hn).
  assert (Hpos : (1 <= n)%nat).
  { destruct n; [| lia]. destruct txs; [contradiction | discriminate Hn]. }
  unfold MerkleTree2.buildTree. rewrite !length_app, Hlayer. cbn [List.length].
  replace (2 * n + 2)%nat with (S (2 * n + 1)) by lia.
  replace (2 * n + 1)%nat with (S (2 * n)) at 2 by lia.
  cbn [MerkleTree2.buildTree_loop].
  rewrite !length_app, Hlayer. cbn [List.length].
  replace (1 <? 2 * n + 2)%nat with true by (symmetry; apply Nat.ltb_lt; lia).
  replace (1 <? 2 * n + 1)%nat with true by (symmetry; apply Nat.ltb_lt; lia).
  rewrite <- (getNextLayer_duplicate_last n layer h Hlayer).
  apply buildTree_loop_fuel; [| lia].
  destruct (getNextLayer_length _ (layer ++ [h]) (Nat.le_refl _)) as [E | E];
    rewrite length_app, Hlayer in E; cbn [List.length] in E; lia.
Qed.

Lemma calculateMerkleRoot_duplicate_last_witness :
  exists root,
    Block.calculateMerkleRoot ([Examples.ta; Examples.tb] ++ [Examples.tc]) = Ok (VStr root)
    /\ Block.calculateMerkleRoot ([Examples.ta; Examples.tb] ++ [Examples.tc; Examples.tc])
       = Ok (VStr root).
Proof.
  apply (calculateMerkleRoot_duplicate_last [Examples.ta; Examples.tb] Examples.tc).
  - discriminate.
  - reflexivity.
Defined.

(** ** The second Merkle tree class *)

(** X7 - The constructor of the second [MerkleTree] class throws on the
    empty array and on every other array builds a tree of one hash, the
    root, a string of 64 characters that [getRoot] returns; its leaves are
    the digests of the rendered transactions, in their order. *)
Theorem merkle2_constructor_outcomes (A : Type) (stringify : A -> string) :
  (exists msg, MerkleTree2.new A stringify [] = Throw (Error msg))
  /\ (forall transactions,
        transactions <> [] ->
        exists root,
          MerkleTree2.new A stringify transactions
          = Ok (MerkleTree2.mk (map (fun t => SHA256.hex (stringify t)) transactions) [root])
          /\ String.length root = 64%nat
          /\ MerkleTree2.getRoot
               (MerkleTree2.mk (map (fun t => SHA256.hex (stringify t)) transactions) [root])
             = VStr root).
Proof.
  split; [eexists; reflexivity |].
  intros transactions Hne.
  assert (Hl : map (fun t => SHA256.hex (stringify t)) transactions <> [])
    by (destruct transactions; [contradiction | discriminate]).
  destruct (buildTree_root _ Hl (map_hex_digests stringify transactions))
    as (root & Hroot & Hlen).
  exists root. split; [| split; [exact Hlen | reflexivity]].
  unfold MerkleTree2.new. destruct transactions as [| t ts]; [contradiction |].
  unfold MerkleTree2.hashData. rewrite Hroot. reflexivity.
Qed.

Lemma indexOf_in (hash : string) (hashes : list string) (i : nat) :
  MerkleTree.indexOf hash hashes = Some i -> In hash hashes.
Proof. intros H. apply indexOf_some in H. apply nth_error_In in H. exact H. Qed.

Lemma indexOf_none_inv (hash : string) (hashes : list string) :
  MerkleTree.indexOf hash hashes = None -> ~ In hash hashes.
Proof.
  induction hashes as [| h rest IH]; intros E Hin; [contradiction |].
  cbn [MerkleTree.indexOf] in E.
  destruct (String.eqb_spec h hash) as [_ | Hne]; [discriminate E |].
  destruct (MerkleTree.indexOf hash rest); [discriminate E |].
  destruct Hin as [Hin | Hin]; [contradiction | exact (IH eq_refl Hin)].
Qed.

(** X8 - [generateProof] of the second class answers [null] exactly when the
    digest of the rendered transaction is not a leaf of the tree. *)
Theorem generateProof2_null_iff (A : Type) (stringify : A -> string)
        (mt : MerkleTree2.t) (transaction : A) :
  MerkleTree2.generateProof A stringify mt transaction = None
  <-> ~ In (SHA256.hex (stringify transaction)) (MerkleTree2.transactions mt).
Proof.
  unfold MerkleTree2.generateProof, MerkleTree2.hashData. split.
  - intros H. apply indexOf_none_inv.
    destruct (MerkleTree.indexOf (SHA256.hex (stringify transaction))
                                 (MerkleTree2.transactions mt)); [discriminate H | reflexivity].
  - intros Hnin. rewrite (indexOf_none _ _ Hnin). reflexivity.
Qed.

Lemma getNextLayer_even (n : nat) :
  forall layer, List.length layer = (2 * n)%nat ->
                List.length (MerkleTree2.getNextLayer layer) = n.
Proof.
  induction n as [| n IH]; intros layer Hlen.
  - destruct layer; [reflexivity | discriminate Hlen].
  - destruct layer as [| l [| r rest]]; [discriminate Hlen | simpl in Hlen; lia |].
    cbn [MerkleTree2.getNextLayer List.length]. f_equal. apply IH. simpl in Hlen. lia.
Qed.

Lemma proofLoop2_power_of_two (k : nat) :
  forall fuel layer index proof,
    List.length layer = (2 ^ k)%nat -> (index < 2 ^ k)%nat -> (k <= fuel)%nat ->
    List.length (MerkleTree2.proofLoop fuel layer index proof)
    = (List.length proof + k)%nat.
Proof.
  induction k as [| k IH]; intros fuel layer index proof Hlen Hindex Hfuel.
  - assert (E : (1 <? List.length layer)%nat = false) by (rewrite Hlen; reflexivity).
    destruct fuel; cbn [MerkleTree2.proofLoop]; rewrite E; lia.
  - rewrite Nat.pow_succ_r' in Hlen, Hindex.
    assert (Hpos : (1 <= 2 ^ k)%nat) by (pose proof (Nat.pow_nonzero 2 k); lia).
    assert (E : (1 <? List.length layer)%nat = true) by (apply Nat.ltb_lt; lia).
    destruct fuel as [| fuel]; [lia |].
    cbn [MerkleTree2.proofLoop]. rewrite E.
    set (siblingIndex := if Nat.odd index then (index - 1)%nat else (index + 1)%nat).
    assert (Hsib : (siblingIndex < List.length layer)%nat).
    { subst siblingIndex. destruct (Nat.odd index) eqn:Hodd; [lia |].
      assert (Hev : Nat.even index = true) by (rewrite <- Nat.negb_odd, Hodd; reflexivity).
      apply Nat.even_spec in Hev as (j & ->). lia. }
    destruct (nth_error layer siblingIndex) as [sibling |] eqn:Hnth;
      [| apply nth_error_None in Hnth; lia].
    rewrite IH.
    + rewrite length_app. simpl. lia.
    + apply getNextLayer_even. exact Hlen.
    + apply Nat.Div0.div_lt_upper_bound. exact Hindex.
    + lia.
Qed.

(** X9 - On a tree of 2^k leaves [generateProof] of the second class returns,
    for every transaction whose digest is a leaf, a proof of exactly k
    hashes: one for each layer below the root. *)
Theorem generateProof2_power_of_two (A : Type) (stringify : A -> string)
        (k : nat) (mt : MerkleTree2.t) (transaction : A) :
  List.length (MerkleTree2.transactions mt) = (2 ^ k)%nat ->
  In (SHA256.hex (stringify transaction)) (MerkleTree2.transactions mt) ->
  exists proof,
    MerkleTree2.generateProof A stringify mt transaction = Some proof
    /\ List.length proof = k.
Proof.
  intros Hlen Hin. unfold MerkleTree2.generateProof, MerkleTree2.hashData.
  destruct (MerkleTree.indexOf (SHA256.hex (stringify transaction))
                               (MerkleTree2.transactions mt)) as [index |] eqn:Hindex.
  - eexists. split; [reflexivity |].
    apply indexOf_some in Hindex.
    assert (Hlt : (index < List.length (MerkleTree2.transactions mt))%nat).
    { apply nth_error_Some. rewrite Hindex. discriminate. }
    rewrite (proofLoop2_power_of_two k); [reflexivity | exact Hlen | lia |].
    rewrite Hlen. apply Nat.lt_le_incl, Nat.pow_gt_lin_r. lia.
  - exfalso. exact (indexOf_none_inv _ _ Hindex Hin).
Qed.

Lemma generateProof2_power_of_two_witness :
  exists proof,
    MerkleTree2.generateProof string JS.json_string
      (MerkleTree2.mk (map (fun t => SHA256.hex (JS.json_string t)) ["a"; "b"; "c"; "d"])
                      (MerkleTree2.buildTree
                         (map (fun t => SHA256.hex (JS.json_string t)) ["a"; "b"; "c"; "d"])))
      "c"
    = Some proof
    /\ List.length proof = 2%nat.
Proof.
  apply (generateProof2_power_of_two string JS.json_string 2).
  - reflexivity.
  - cbn [MerkleTree2.transactions map]. right. right. left. reflexivity.
Defined.

(** ** Blocks, continued *)

(** X10 - The constructor of [Block]: a [transactions] argument that is not
    an array makes it throw a [TypeError], the empty array makes it throw the
    error of the Merkle tree, and every other array gives a block that keeps
    the arguments, whose Merkle root and hash are strings of 64 characters
    and whose hash is the one [calculateHash] recomputes. *)
Theorem block_constructor_outcomes (index previousHash timestamp : value)
        (nonce : option Z) :
  (forall transactions,
      (forall txs, transactions <> VArr txs) ->
      Block.new index previousHash timestamp transactions nonce = Throw TypeError)
  /\ Block.new index previousHash timestamp (VArr []) nonce
     = Throw (Error "Transactions must be an array and cannot be empty.")
  /\ (forall txs,
        txs <> [] ->
        exists root hash,
          Block.new index previousHash timestamp (VArr txs) nonce
          = Ok (Block.mk index previousHash timestamp txs
                         (match nonce with Some n => n | None => 0 end)
                         (VStr root) hash)
          /\ String.length root = 64%nat
          /\ String.length hash = 64%nat
          /\ Block.calculateHash
               (Block.mk index previousHash timestamp txs
                         (match nonce with Some n => n | None => 0 end)
                         (VStr root) hash)
             = Ok hash).
Proof.
  split; [| split].
  - intros transactions Hna. destruct transactions; try reflexivity.
    exfalso. exact (Hna _ eq_refl).
  - reflexivity.
  - intros txs Hne.
    destruct (calculateMerkleRoot_ok txs Hne) as (root & _ & Hlen & Hroot).
    set (n := match nonce with Some n => n | None => 0 end).
    set (this := Block.mk index previousHash timestamp txs n (VStr root) EmptyString).
    exists root, (SHA256.hex (Block.hashContent this)).
    split; [| split; [exact Hlen | split; [apply hex_length |]]].
    + unfold Block.new. rewrite Hroot. cbn [bind]. fold n. fold this.
      rewrite (calculateHash_ok this). reflexivity.
    + rewrite calculateHash_ok. reflexivity.
Qed.

Lemma mineStep_frame (b b' : Block.t) :
  Block.mineStep b = Ok b' ->
  Block.index b' = Block.index b
  /\ Block.previousHash b' = Block.previousHash b
  /\ Block.timestamp b' = Block.timestamp b
  /\ Block.transactions b' = Block.transactions b
  /\ Block.merkleRoot b' = Block.merkleRoot b
  /\ Block.nonce b' = Block.nonce b + 1
  /\ String.length (Block.hash b') = 64%nat.
Proof.
  unfold Block.mineStep. rewrite calculateHash_ok. cbn [bind].
  intros H. injection H as <-. cbn. repeat split. apply hex_length.
Qed.



(** X12 - The difficulties at the edge: at difficulty 0 and at difficulty -1
    [mineBlock] returns the block as it came, without hashing; below -1 and
    above 2^32 - 2 it throws a [RangeError] before it looks at the block. *)
Theorem mineBlock_edge_difficulties (difficulty : Z) (b : Block.t) :
  (difficulty = 0 \/ difficulty = -1 -> Block.mineBlock 0 difficulty b = Some (Ok b))
  /\ (difficulty < -1 \/ 4294967294 < difficulty ->
      Block.mineBlock 0 difficulty b = Some (Throw RangeError)).
Proof.
  split.
  - intros [-> | ->]; cbn; destruct (Block.hash b); reflexivity.
  - intros Hd. cbn [Block.mineBlock]. unfold Block.offTarget, JS.array_length_ok.
    replace ((0 <=? difficulty + 1) && (difficulty + 1 <=? 4294967295)) with false;
      [reflexivity |].
    symmetry. apply andb_false_iff. destruct Hd; [left | right]; lia.
Qed.

Lemma zeros_length (n : nat) : String.length (JS.zeros n) = n.
Proof. induction n as [| n IH]; simpl; [reflexivity | rewrite IH; reflexivity]. Qed.

Lemma append_length (s1 s2 : string) :
  String.length (s1 ++ s2) = (String.length s1 + String.length s2)%nat.
Proof. induction s1 as [| c s1 IH]; simpl; [reflexivity | rewrite IH; reflexivity]. Qed.

Lemma offTarget_found_length (difficulty : Z) (b : Block.t) :
  Block.offTarget difficulty b = Ok false ->
  difficulty <= Z.of_nat (String.length (Block.hash b)).
Proof.
  unfold Block.offTarget.
  destruct (negb (JS.array_length_ok (difficulty + 1))); [discriminate |].
  intros H. injection H as H. apply negb_false_iff, String.eqb_eq in H.
  apply substring_zeros in H as (rest & H). rewrite H, append_length, zeros_length. lia.
Qed.

Lemma mineBlock_hash_length (fuel : nat) (difficulty : Z) :
  forall b b' bound,
    (64 <= bound)%nat ->
    (String.length (Block.hash b) <= bound)%nat ->
    Block.mineBlock fuel difficulty b = Some (Ok b') ->
    difficulty <= Z.of_nat bound.
Proof.
  induction fuel as [| fuel IH]; intros b b' bound Hbound Hlen; cbn [Block.mineBlock];
    destruct (Block.offTarget difficulty b) as [[|] | e] eqn:Hoff; try discriminate.
  - intros _. apply offTarget_found_length in Hoff. lia.
  - destruct (Block.mineStep b) as [b1 | e] eqn:Hstep; [| discriminate].
    apply (IH b1 b' bound Hbound).
    destruct (mineStep_frame _ _ Hstep) as (_ & _ & _ & _ & _ & _ & H64). lia.
  - intros _. apply offTarget_found_length in Hoff. lia.
Qed.

(** X13 - No proof of work above 64: on a block whose hash has at most 64
    characters, as every hash that the class computes has, [mineBlock] with a
    difficulty above 64 never returns a block, however long it runs. *)
Theorem mineBlock_above_64 (fuel : nat) (difficulty : Z) (b b' : Block.t) :
  64 < difficulty ->
  (String.length (Block.hash b) <= 64)%nat ->
  Block.mineBlock fuel difficulty b <> Some (Ok b').
Proof.
  intros Hd Hlen Hrun.
  pose proof (mineBlock_hash_length fuel difficulty b b' 64 (Nat.le_refl _) Hlen Hrun).
  lia.
Qed.

Lemma mineBlock_above_64_witness :
  Block.mineBlock 2 65 Examples.blockZero <> Some (Ok Examples.blockZero).
Proof.
  apply (mineBlock_above_64 2 65 Examples.blockZero Examples.blockZero).
  - lia.
  - vm_compute. apply le_n.
Defined.

Lemma strict_eq_str (v : value) (s : string) :
  Value.strict_eq v (VStr s) = true <-> v = VStr s.
Proof.
  destruct v; cbn; split; try discriminate.
  - intros H. apply String.eqb_eq in H. congruence.
  - intros H. injection H as ->. apply String.eqb_refl.
Qed.

(** X14 - [validateTransactions] never answers [true]: on a block without
    transactions it fails with the error of the Merkle tree; on a block
    whose stored root is not the recomputed one it answers [false]; and on a
    block whose stored root is the recomputed one it fails with a
    [TypeError], at the call of [validate] on the first transaction. *)
Theorem validateTransactions_outcomes (b : Block.t) :
  Block.validateTransactions b <> Ok true
  /\ (Block.transactions b = [] ->
      Block.validateTransactions b
      = Throw (Error "Transactions must be an array and cannot be empty."))
  /\ (Block.transactions b <> [] ->
      Block.calculateMerkleRoot (Block.transactions b) <> Ok (Block.merkleRoot b) ->
      Block.validateTransactions b = Ok false)
  /\ (Block.transactions b <> [] ->
      Block.calculateMerkleRoot (Block.transactions b) = Ok (Block.merkleRoot b) ->
      Block.validateTransactions b = Throw TypeError).
Proof.
  unfold Block.validateTransactions.
  destruct (Block.transactions b) as [| tx txs] eqn:Htxs.
  - cbn. repeat split; try discriminate; intros H; contradiction.
  - destruct (calculateMerkleRoot_ok (tx :: txs)) as (root & _ & _ & Hroot); [discriminate |].
    rewrite Hroot. cbn [bind].
    destruct (Value.strict_eq (Block.merkleRoot b) (VStr root)) eqn:E; cbn.
    + apply strict_eq_str in E.
      repeat split; try discriminate.
      * intros _ H. exfalso. apply H. rewrite E. reflexivity.
    + repeat split; try discriminate.
      intros _ H. injection H as H. symmetry in H. apply strict_eq_str in H. congruence.
Qed.

(** ** The ledger, continued *)

(** X15 - [isChainValid] never answers [false]: a chain of at most one
    block is valid without a look at the block, and on every longer chain
    the call ends in a [TypeError], at [hasValidTransactions] of the second
    block. *)
Theorem isChainValid_outcomes (bc : Blockchain.t) :
  Blockchain.isChainValid bc <> Ok false
  /\ ((List.length (Blockchain.chain bc) <= 1)%nat -> Blockchain.isChainValid bc = Ok true)
  /\ ((1 < List.length (Blockchain.chain bc))%nat ->
      Blockchain.isChainValid bc = Throw TypeError).
Proof.
  unfold Blockchain.isChainValid.
  destruct (Blockchain.chain bc) as [| first [| second rest]]; cbn;
    repeat split; try discriminate; try reflexivity; intros; lia.
Qed.

Lemma adjustDifficulty_slow (bc : Blockchain.t) (latest lastBlock : Block.t) (t1 t0 : Z) :
  0 <= Blockchain.blockTime bc ->
  Blockchain.getLatestBlock bc = Some latest ->
  Value.to_number (Block.timestamp latest) = Some t0 ->
  Value.to_number (Block.timestamp lastBlock) = Some t1 ->
  Blockchain.blockTime bc * 2 < t1 - t0 ->
  Blockchain.adjustDifficulty bc lastBlock
  = (Ok tt, Blockchain.with_difficulty bc (Blockchain.difficulty bc - 1)).
Proof.
  intros Hbt Hlatest Ht0 Ht1 Hslow. unfold Blockchain.adjustDifficulty.
  rewrite Hlatest, Ht0, Ht1.
  destruct (Z.ltb_spec (2 * (t1 - t0)) (Blockchain.blockTime bc)); [lia |].
  destruct (Z.gtb_spec (t1 - t0) (Blockchain.blockTime bc * 2)); [reflexivity | lia].
Qed.

(** X16 - [adjustDifficulty] has no floor: on a ledger whose block time is
    not negative, every block that comes more than twice the block time
    after the latest block of the chain lowers the difficulty by one and
    changes nothing else, so a run of n such blocks leaves the difficulty n
    lower, below zero when n is above it. *)
Theorem adjustDifficulty_no_floor (bc : Blockchain.t) (latest : Block.t) (t0 : Z)
        (blocks : list Block.t) :
  0 <= Blockchain.blockTime bc ->
  Blockchain.getLatestBlock bc = Some latest ->
  Value.to_number (Block.timestamp latest) = Some t0 ->
  Forall (fun b => exists t1, Value.to_number (Block.timestamp b) = Some t1
                              /\ Blockchain.blockTime bc * 2 < t1 - t0) blocks ->
  fold_left (fun bc b => snd (Blockchain.adjustDifficulty bc b)) blocks bc
  = Blockchain.with_difficulty bc (Blockchain.difficulty bc - Z.of_nat (List.length blocks)).
Proof.
  intros Hbt Hlatest Ht0 Hslow. revert bc Hbt Hlatest Hslow.
  induction blocks as [| b blocks IH]; intros bc Hbt Hlatest Hslow.
  - cbn. rewrite Z.sub_0_r. destruct bc; reflexivity.
  - inversion Hslow as [| ? ? (t1 & Ht1 & Hlate) Hrest]; subst.
    cbn [fold_left].
    rewrite (adjustDifficulty_slow bc latest b t1 t0 Hbt Hlatest Ht0 Ht1 Hlate).
    cbn [snd]. rewrite IH; [| exact Hbt | exact Hlatest | exact Hrest].
    unfold Blockchain.with_difficulty. cbn. f_equal. cbn [List.length]. lia.
Qed.

Lemma adjustDifficulty_no_floor_witness :
  fold_left (fun bc b => snd (Blockchain.adjustDifficulty bc b))
            [Examples.nextBlock "m" 1704067300000 [Examples.blockZero];
             Examples.nextBlock "m" 1704067300000 [Examples.blockZero];
             Examples.nextBlock "m" 1704067300000 [Examples.blockZero]]
            (Blockchain.mk [Examples.blockZero] 2 [] 100 30000 [])
  = Blockchain.with_difficulty (Blockchain.mk [Examples.blockZero] 2 [] 100 30000 [])
                               (2 - Z.of_nat 3).
Proof.
  apply (adjustDifficulty_no_floor (Blockchain.mk [Examples.blockZero] 2 [] 100 30000 [])
                                   Examples.blockZero 1704067200000).
  - cbn. lia.
  - reflexivity.
  - reflexivity.
  - repeat constructor; exists 1704067300000; (split; [vm_compute; reflexivity | cbn; lia]).
Defined.

(** X17 - [addTransaction] of the ledger: the call succeeds exactly when
    [isValid] answers [true], it then puts the transaction at the end of the
    queue and changes nothing else, and it leaves the ledger as it was when
    it throws; a transaction of type "reward" is queued whatever its sender,
    amount and signature are. *)
Theorem addTransaction_outcomes (rsa_verify : string -> string -> string -> result bool)
        (bc : Blockchain.t) (transaction : Transaction.t) :
  let r := Blockchain.addTransaction rsa_verify bc transaction in
  (fst r = Ok tt <-> Transaction.isValid rsa_verify transaction = Ok true)
  /\ (fst r = Ok tt ->
      snd r = Blockchain.with_pending
                bc (Blockchain.pendingTransactions bc ++ [transaction])%list)
  /\ (fst r <> Ok tt -> snd r = bc)
  /\ (Transaction.isValid rsa_verify transaction = Ok false ->
      fst r = Throw (Error "Invalid transaction."))
  /\ (Transaction.type transaction = "reward" -> fst r = Ok tt).
Proof.
  unfold Blockchain.addTransaction.
  assert (Hreward : Transaction.type transaction = "reward" ->
                    Transaction.isValid rsa_verify transaction = Ok true).
  { intros E. unfold Transaction.isValid. rewrite E. reflexivity. }
  destruct (Transaction.isValid rsa_verify transaction) as [[|] | e]; cbn;
    repeat split; try discriminate; try reflexivity; try congruence;
    intros H; try (exfalso; apply H; reflexivity);
    specialize (Hreward H); discriminate Hreward.
Qed.

Lemma toString_not_empty (tx : Transaction.t) : Transaction.toString tx <> EmptyString.
Proof. unfold Transaction.toString. discriminate. Qed.

Lemma mapM_toString (txs : list Transaction.t) :
  mapM (fun tx => Crypto.hashSHA256 (Transaction.toString tx)) txs
  = Ok (map (fun tx => SHA256.hex (Transaction.toString tx)) txs).
Proof.
  induction txs as [| tx txs IH]; [reflexivity |].
  cbn [mapM map]. rewrite (hashSHA256_ok _ (toString_not_empty tx)). cbn [bind].
  rewrite IH. reflexivity.
Qed.

(** X18 - [getPendingTransactionsMerkleTree] throws on an empty queue and
    otherwise returns a tree with one leaf for each queued transaction, the
    digest of the digest of its [toString()], under a root of 64
    characters. *)
Theorem getPendingTransactionsMerkleTree_outcomes (bc : Blockchain.t) :
  (Blockchain.pendingTransactions bc = [] ->
   Blockchain.getPendingTransactionsMerkleTree bc
   = Throw (Error "Transactions must be an array and cannot be empty."))
  /\ (Blockchain.pendingTransactions bc <> [] ->
      exists root,
        Blockchain.getPendingTransactionsMerkleTree bc
        = Ok (MerkleTree.mk
                (map (fun tx => SHA256.hex (SHA256.hex (Transaction.toString tx)))
                     (Blockchain.pendingTransactions bc))
                [root])
        /\ String.length root = 64%nat).
Proof.
  unfold Blockchain.getPendingTransactionsMerkleTree. rewrite mapM_toString. cbn [bind].
  split.
  - intros ->. reflexivity.
  - intros Hne.
    set (hashes := map (fun tx => SHA256.hex (Transaction.toString tx))
                       (Blockchain.pendingTransactions bc)).
    assert (Hh : hashes <> []).
    { subst hashes. destruct (Blockchain.pendingTransactions bc); [contradiction | discriminate]. }
    assert (Hl : map SHA256.hex hashes <> []) by (destruct hashes; [contradiction | discriminate]).
    destruct (buildTree_root _ Hl (map_hex_digests (fun h => h) hashes))
      as (root & Hroot & Hlen).
    exists root. split; [| exact Hlen].
    rewrite merkle_new_ok; [| exact Hh | apply map_digest_nonEmpty].
    rewrite Hroot. subst hashes. rewrite map_map. reflexivity.
Qed.

Lemma minePendingTransactions_state (fuel : nat) (bc : Blockchain.t)
      (miningRewardAddress : string) (now_tx now_block : Z) :
  Blockchain.minePendingTransactions fuel bc miningRewardAddress now_tx now_block
  = Some (Throw TypeError,
          Blockchain.with_pending
            bc (Blockchain.pendingTransactions bc
                ++ [Transaction.new None miningRewardAddress (Blockchain.miningReward bc)
                                    None now_tx])%list).
Proof.
  unfold Blockchain.minePendingTransactions.
  destruct (Blockchain.getLatestBlock _); reflexivity.
Qed.

(** X19 - Mining on the ledger never extends the chain: whatever the ledger,
    the reward address and the clock, a call of [minePendingTransactions]
    ends in a [TypeError]; a run of calls keeps the chain and the difficulty
    and leaves one more reward transaction in the queue for each call. *)
Theorem mining_never_extends_chain (fuel : nat) (bc : Blockchain.t)
        (calls : list (string * Z * Z)) :
  (forall bc' miningRewardAddress now_tx now_block,
      exists bc'',
        Blockchain.minePendingTransactions fuel bc' miningRewardAddress now_tx now_block
        = Some (Throw TypeError, bc''))
  /\ fold_left
       (fun bc call =>
          match Blockchain.minePendingTransactions fuel bc (fst (fst call))
                                                   (snd (fst call)) (snd call) with
          | Some (_, bc') => bc'
          | None => bc
          end) calls bc
     = Blockchain.with_pending
         bc (Blockchain.pendingTransactions bc
             ++ map (fun call =>
                       Transaction.new None (fst (fst call)) (Blockchain.miningReward bc)
                                       None (snd (fst call))) calls)%list.
Proof.
  split.
  - intros bc' a t1 t2. eexists. apply minePendingTransactions_state.
  - revert bc. induction calls as [| call calls IH]; intros bc.
    + cbn. rewrite app_nil_r. destruct bc; reflexivity.
    + cbn [fold_left map]. rewrite minePendingTransactions_state, IH.
      unfold Blockchain.with_pending. cbn. rewrite <- app_assoc. reflexivity.
Qed.

(** ** Balances *)

(** X20 - A queued outgoing payment enters the available balance with its
    sign reversed.  When a transaction sent from an address joins the queue
    of the ledger, the confirmed balance that [BalanceManager] computes for
    the address does not change, the pending balance becomes the old one
    minus the amount, and the available balance, which was confirmed minus
    pending, becomes confirmed minus (pending minus amount), each difference
    taken in double arithmetic. *)
Theorem queued_payment_enters_available (blockchain : Payments.blockchain)
        (address : string) (transaction : Payments.transaction) :
  Payments.fromAddress transaction = Some address ->
  let queued :=
    Payments.Ledger (Payments.chain blockchain)
                    (Payments.pendingTransactions blockchain ++ [transaction])%list in
  BalanceManager.calculateConfirmedBalance queued address
  = BalanceManager.calculateConfirmedBalance blockchain address
  /\ BalanceManager.calculatePendingBalance queued address
     = PrimFloat.sub (BalanceManager.calculatePendingBalance blockchain address)
                     (Payments.amount transaction)
  /\ BalanceManager.calculateAvailableBalance queued address
     = PrimFloat.sub
         (BalanceManager.calculateConfirmedBalance blockchain address)
         (PrimFloat.sub (BalanceManager.calculatePendingBalance blockchain address)
                        (Payments.amount transaction)).
Proof.
  intros Hfrom. cbv zeta.
  assert (Hconfirmed :
            BalanceManager.calculateConfirmedBalance
              (Payments.Ledger (Payments.chain blockchain)
                               (Payments.pendingTransactions blockchain ++ [transaction])%list)
              address
            = BalanceManager.calculateConfirmedBalance blockchain address) by reflexivity.
  assert (Hpending :
            BalanceManager.calculatePendingBalance
              (Payments.Ledger (Payments.chain blockchain)
                               (Payments.pendingTransactions blockchain ++ [transaction])%list)
              address
            = PrimFloat.sub (BalanceManager.calculatePendingBalance blockchain address)
                            (Payments.amount transaction)).
  { unfold BalanceManager.calculatePendingBalance, BalanceManager.calculateBalance.
    cbn [Payments.chain Payments.pendingTransactions].
    change ("pending" =? "pending")%string with true. cbv iota.
    rewrite fold_left_app. cbn [fold_left].
    unfold BalanceManager.countQueued at 1. rewrite Hfrom.
    cbn [BalanceManager.sameAddress]. rewrite String.eqb_refl. reflexivity. }
  split; [exact Hconfirmed |]. split; [exact Hpending |].
  unfold BalanceManager.calculateAvailableBalance. cbv zeta.
  rewrite Hconfirmed, Hpending. reflexivity.
Qed.

Lemma queued_payment_enters_available_witness :
  BalanceManager.calculateAvailableBalance
    (Payments.Ledger (Payments.chain Samples.aliceLedger)
                     (Payments.pendingTransactions Samples.aliceLedger
                      ++ [Samples.aliceToBob])%list)
    "alice"
  = PrimFloat.sub
      (BalanceManager.calculateConfirmedBalance Samples.aliceLedger "alice")
      (PrimFloat.sub (BalanceManager.calculatePendingBalance Samples.aliceLedger "alice")
                     (Payments.amount Samples.aliceToBob))
  /\ PrimFloat.ltb
       (BalanceManager.calculateAvailableBalance Samples.aliceLedger "alice")
       (BalanceManager.calculateAvailableBalance
          (Payments.Ledger (Payments.chain Samples.aliceLedger)
                           (Payments.pendingTransactions Samples.aliceLedger
                            ++ [Samples.aliceToBob])%list)
          "alice")
     = true
  /\ PrimFloat.eqb
       (BalanceManager.calculateAvailableBalance
          (Payments.Ledger (Payments.chain Samples.aliceLedger)
                           (Payments.pendingTransactions Samples.aliceLedger
                            ++ [Samples.aliceToBob])%list)
          "alice")
       (PrimFloat.add
          (BalanceManager.calculateAvailableBalance Samples.aliceLedger "alice")
          (Payments.amount Samples.aliceToBob))
     = false.
Proof.
  split.
  - apply (queued_payment_enters_available Samples.aliceLedger "alice" Samples.aliceToBob).
    reflexivity.
  - split; vm_compute; reflexivity.
Defined.

Lemma fold_left_agree {A B : Type} (P : B -> Prop) (f g : A -> B -> A) (xs : list B) :
  (forall a x, P x -> f a x = g a x) ->
  Forall P xs -> forall a, fold_left f xs a = fold_left g xs a.
Proof.
  intros Hfg Hall. induction Hall as [| x xs Hx _ IH]; intros a; [reflexivity |].
  cbn [fold_left]. rewrite (Hfg a x Hx). apply IH.
Qed.

Lemma fold_left_keep {A B : Type} (P : B -> Prop) (f : A -> B -> A) (xs : list B) :
  (forall a x, P x -> f a x = a) ->
  Forall P xs -> forall a, fold_left f xs a = a.
Proof.
  intros Hf Hall. induction Hall as [| x xs Hx _ IH]; intros a; [reflexivity |].
  cbn [fold_left]. rewrite (Hf a x Hx). apply IH.
Qed.

Lemma countConfirmed_countTransaction (publicKey : string) (balance : PrimFloat.float)
      (transaction : Payments.transaction) :
  settled publicKey transaction ->
  Wallet.countConfirmed publicKey balance transaction
  = BalanceManager.countTransaction publicKey "confirmed" balance transaction.
Proof.
  intros (Hs & Hself). unfold Wallet.countConfirmed, BalanceManager.countTransaction.
  rewrite Hs. change ("confirmed" =? "confirmed")%string with true. cbn [negb].
  destruct (String.eqb_spec (Payments.toAddress transaction) publicKey) as [Hto | Hto];
    destruct (Payments.fromAddress transaction) as [sender |] eqn:Hfrom;
    cbn [BalanceManager.sameAddress]; try reflexivity.
  destruct (String.eqb_spec sender publicKey) as [Hsender | Hsender]; [| reflexivity].
  exfalso. apply Hself. split; [rewrite Hsender; reflexivity | exact Hto].
Qed.

Lemma countTransaction_other_status (address status : string) (balance : PrimFloat.float)
      (transaction : Payments.transaction) :
  Payments.status transaction <> status ->
  BalanceManager.countTransaction address status balance transaction = balance.
Proof.
  intros Hs. unfold BalanceManager.countTransaction.
  destruct (String.eqb_spec (Payments.status transaction) status); [contradiction |].
  reflexivity.
Qed.

(** X21 - The two balance calculations agree, to the last bit, on a ledger
    whose blocks hold confirmed transactions only, none of which is a
    payment of the key to itself: the confirmed, the pending and the
    available balance that [Wallet.calculateBalances] returns are the ones
    that [BalanceManager] computes for the public key of the wallet. *)
Theorem wallet_agrees_with_balance_manager (publicKey : string)
        (blockchain : Payments.blockchain) :
  Forall (Forall (settled publicKey)) (Payments.chain blockchain) ->
  Wallet.calculateBalances publicKey blockchain
  = Wallet.Balances
      (BalanceManager.calculateConfirmedBalance blockchain publicKey)
      (BalanceManager.calculatePendingBalance blockchain publicKey)
      (BalanceManager.calculateAvailableBalance blockchain publicKey).
Proof.
  intros Hall.
  assert (Hconfirmed :
            fold_left (fun balance block =>
                         fold_left (Wallet.countConfirmed publicKey) block balance)
                      (Payments.chain blockchain) PrimFloat.zero
            = BalanceManager.calculateConfirmedBalance blockchain publicKey).
  { unfold BalanceManager.calculateConfirmedBalance, BalanceManager.calculateBalance.
    change ("confirmed" =? "pending")%string with false. cbv iota.
    apply (fold_left_agree (Forall (settled publicKey))); [| exact Hall].
    intros a block Hblock.
    apply (fold_left_agree (settled publicKey)); [| exact Hblock].
    intros; apply countConfirmed_countTransaction; assumption. }
  assert (Hpending :
            fold_left (BalanceManager.countQueued publicKey)
                      (Payments.pendingTransactions blockchain) PrimFloat.zero
            = BalanceManager.calculatePendingBalance blockchain publicKey).
  { unfold BalanceManager.calculatePendingBalance, BalanceManager.calculateBalance.
    change ("pending" =? "pending")%string with true. cbv iota.
    f_equal. symmetry.
    apply (fold_left_keep (Forall (settled publicKey))); [| exact Hall].
    intros a block Hblock.
    apply (fold_left_keep (settled publicKey)); [| exact Hblock].
    intros b t (Ht & _). apply countTransaction_other_status. rewrite Ht. discriminate. }
  unfold Wallet.calculateBalances, BalanceManager.calculateAvailableBalance.
  cbv zeta. rewrite Hconfirmed, Hpending. reflexivity.
Qed.

Lemma wallet_agrees_with_balance_manager_witness :
  Wallet.calculateBalances "bob" Samples.bobLedger
  = Wallet.Balances
      (BalanceManager.calculateConfirmedBalance Samples.bobLedger "bob")
      (BalanceManager.calculatePendingBalance Samples.bobLedger "bob")
      (BalanceManager.calculateAvailableBalance Samples.bobLedger "bob").
Proof.
  apply (wallet_agrees_with_balance_manager "bob" Samples.bobLedger).
  cbn [Samples.bobLedger Payments.chain].
  apply Forall_cons; [| apply Forall_nil].
  apply Forall_cons; [| apply Forall_cons; [| apply Forall_nil]];
    (split; [reflexivity | intros (H1 & H2); first [discriminate H1 | discriminate H2]]).
Defined.

(** The two calculations part on a payment of the key to itself: the
    wallet adds the amount and then takes it away, the balance manager takes
    it away and then adds it, and the two roundings differ. *)
Lemma self_payment_rounds_differently :
  PrimFloat.eqb
    (Wallet.confirmedBalance (Wallet.calculateBalances "bob" Samples.bobToBob))
    (BalanceManager.calculateConfirmedBalance Samples.bobToBob "bob")
  = false.
Proof. vm_compute. reflexivity. Qed.

(** ** The mining service and the synchronisation of nodes *)

(** X22 - [adjustDifficulty] of the mining service keeps the difficulty at 1
    or above, whatever it was, moves it by at most one step when it was at
    1 or above, and changes nothing else of the service. *)
Theorem mining_service_difficulty_floor (s : BlockchainService.t) (blockTime : Z) :
  let s' := MiningService.adjustDifficulty s blockTime in
  1 <= BlockchainService.difficulty s'
  /\ (1 <= BlockchainService.difficulty s ->
      BlockchainService.difficulty s - 1 <= BlockchainService.difficulty s'
      <= BlockchainService.difficulty s + 1)
  /\ (blockTime < 2000 -> 0 <= BlockchainService.difficulty s ->
      BlockchainService.difficulty s' = BlockchainService.difficulty s + 1)
  /\ BlockchainService.miningReward s' = BlockchainService.miningReward s
  /\ BlockchainService.pendingTransactions s' = BlockchainService.pendingTransactions s.
Proof.
  unfold MiningService.adjustDifficulty. cbn.
  destruct (Z.ltb_spec blockTime 2000); repeat split; lia.
Qed.

Lemma insert_head (a : list Block.t) (sorted : list (list Block.t)) :
  exists longest rest,
    NodeSynchronization.insert a sorted = longest :: rest
    /\ (longest = a \/ exists rest', sorted = longest :: rest')
    /\ (List.length a <= List.length longest)%nat
    /\ (forall first rest', sorted = first :: rest' ->
                            (List.length first <= List.length longest)%nat).
Proof.
  destruct sorted as [| b rest]; cbn [NodeSynchronization.insert].
  - exists a, []. repeat split; [left; reflexivity | lia | discriminate].
  - destruct (Nat.ltb_spec (List.length a) (List.length b)).
    + exists b, (NodeSynchronization.insert a rest).
      repeat split; [right; eexists; reflexivity | lia |].
      intros first rest' E. injection E as <- _. lia.
    + exists a, (b :: rest).
      repeat split; [left; reflexivity | lia |].
      intros first rest' E. injection E as <- _. lia.
Qed.

Lemma sortByLength_head (chains : list (list Block.t)) :
  match NodeSynchronization.sortByLength chains with
  | [] => chains = []
  | longest :: _ =>
      In longest chains
      /\ Forall (fun chain => (List.length chain <= List.length longest)%nat) chains
  end.
Proof.
  induction chains as [| a chains IH]; [reflexivity |].
  cbn [NodeSynchronization.sortByLength fold_right].
  fold (NodeSynchronization.sortByLength chains).
  destruct (insert_head a (NodeSynchronization.sortByLength chains))
    as (longest & rest & -> & Hwho & Ha & Hfirst).
  destruct (NodeSynchronization.sortByLength chains) as [| first rest'] eqn:Hsorted.
  - subst chains. destruct Hwho as [-> | (? & E)]; [| discriminate E].
    split; [left; reflexivity | constructor; [lia | constructor]].
  - destruct IH as (Hin & Hall).
    specialize (Hfirst first rest' eq_refl).
    split.
    + destruct Hwho as [-> | (? & E)]; [left; reflexivity |].
      injection E as <- _. right. exact Hin.
    + constructor; [exact Ha |].
      apply (Forall_impl _ (P := fun chain => (List.length chain <= List.length first)%nat));
        [intros c Hc; lia | exact Hall].
Qed.

(** X23 - [synchronizeChain] of [NodeSynchronization] looks at one chain
    only: the ledger is left as it was, or it is replaced by a chain that a
    peer sent, that no other chain sent is longer than, that is longer than
    the local chain and that [isValidChain] accepted.  A shorter chain is
    never adopted, even when the longest one is refused. *)
Theorem synchronize_longest_only
        (isValidChain : list Block.t -> result bool)
        (replaceChain : Blockchain.t -> list Block.t -> Blockchain.t)
        (blockchain : Blockchain.t) (chains : list (list Block.t)) :
  let r := NodeSynchronization.synchronizeChain isValidChain replaceChain blockchain chains in
  snd r = blockchain
  \/ exists longestChain,
      In longestChain chains
      /\ Forall (fun chain => (List.length chain <= List.length longestChain)%nat) chains
      /\ (List.length (Blockchain.chain blockchain) < List.length longestChain)%nat
      /\ isValidChain longestChain = Ok true
      /\ r = (Ok tt, replaceChain blockchain longestChain).
Proof.
  unfold NodeSynchronization.synchronizeChain.
  pose proof (sortByLength_head chains) as Hhead.
  destruct (NodeSynchronization.sortByLength chains) as [| longestChain rest];
    [left; reflexivity |].
  destruct Hhead as (Hin & Hall).
  destruct (Nat.ltb_spec (List.length (Blockchain.chain blockchain))
                         (List.length longestChain)) as [Hlt | _]; [| left; reflexivity].
  destruct (isValidChain longestChain) as [[|] | e] eqn:Hvalid;
    [| left; reflexivity | left; reflexivity].
  right. exists longestChain. repeat split; assumption.
Qed.

(** ** The service, continued *)









(** ** Signing *)

(** X27 - [signTransaction]: a transaction that is not a reward and has no
    sender is refused, and so is an empty private key; a call that throws
    leaves the transaction as it was; a call that returns has stored the
    signature that the signing primitive gave for the hash of the
    transaction and has changed nothing else, so the hash of the signed
    transaction is the hash that was signed. *)
Theorem signTransaction_outcomes (rsa_sign : string -> string -> result string)
        (tx : Transaction.t) (privateKey : string) :
  let r := Transaction.signTransaction rsa_sign tx privateKey in
  (Transaction.type tx <> "reward" -> JS.falsy (Transaction.fromAddress tx) = true ->
   r = (Throw (Error "Non-reward transactions require a from address."), tx))
  /\ (privateKey = EmptyString -> exists msg, r = (Throw (Error msg), tx))
  /\ (fst r <> Ok tt -> snd r = tx)
  /\ (fst r = Ok tt ->
      exists signature,
        rsa_sign (Transaction.calculateHash tx) privateKey = Ok signature
        /\ privateKey <> EmptyString
        /\ snd r = Transaction.with_signature tx (Some signature)
        /\ Transaction.calculateHash (snd r) = Transaction.calculateHash tx).
Proof.
  unfold Transaction.signTransaction, Crypto.signData.
  assert (Hhash : (Transaction.calculateHash tx =? EmptyString)%string = false).
  { apply String.eqb_neq. apply hex_not_empty. }
  rewrite Hhash. cbn [orb].
  destruct (String.eqb_spec (Transaction.type tx) "reward") as [Hty | Hty];
    destruct (JS.falsy (Transaction.fromAddress tx)) eqn:Hfrom;
    destruct (String.eqb_spec privateKey EmptyString) as [Hkey | Hkey];
    try destruct (rsa_sign (Transaction.calculateHash tx) privateKey) as [signature | err];
    cbn;
    (split; [intros H1 H2; first [contradiction | discriminate H2 | reflexivity]
            | split; [intros Hk; first [contradiction | eexists; reflexivity]
                     | split; [intros Hn; first [reflexivity | exfalso; apply Hn; reflexivity]
                              | intros Hok;
                                first [discriminate Hok
                                      | eexists; repeat split; eassumption]]]]).
Qed.

(** ** Validation of stored chains *)

(** What [validateChain] asks of two neighbours of the chain. *)
Lemma validateChain_from_spec (dateToString : Z -> string)
      (rest : list (option BlockModel.t)) :
  forall previous,
    (ValidationService.validateChain_from dateToString previous rest = Ok true
     <-> forall i current before,
           nth_error (previous :: rest) (S i) = Some current ->
           nth_error (previous :: rest) i = Some before ->
           exists c b,
             current = Some c /\ before = Some b
             /\ BlockModel.previousHash c = BlockModel.hash b
             /\ BlockModel.hash c = BlockModel.calculateHash dateToString c)
    /\ ValidationService.validateChain_from dateToString previous rest <> Ok false.
Proof.
  induction rest as [| current rest IH]; intros previous.
  - cbn. split; [| discriminate]. split; [| reflexivity].
    intros _ i current before H. destruct i; discriminate H.
  - cbn [ValidationService.validateChain_from].
    destruct current as [c |].
    2:{ split; [| discriminate]. split; [discriminate |].
        intros H. destruct (H O None previous eq_refl eq_refl) as (c & _ & E & _).
        discriminate E. }
    destruct previous as [b |].
    2:{ split; [| discriminate]. split; [discriminate |].
        intros H. destruct (H O (Some c) None eq_refl eq_refl) as (_ & b & _ & E & _).
        discriminate E. }
    destruct (String.eqb_spec (BlockModel.previousHash c) (BlockModel.hash b))
      as [Hlink | Hlink]; cbn [negb].
    2:{ split; [| discriminate]. split; [discriminate |].
        intros H. destruct (H O (Some c) (Some b) eq_refl eq_refl)
          as (c' & b' & Ec & Eb & Hl & _).
        injection Ec as <-. injection Eb as <-. contradiction. }
    destruct (String.eqb_spec (BlockModel.hash c)
                              (BlockModel.calculateHash dateToString c))
      as [Hhash | Hhash]; cbn [negb].
    2:{ split; [| discriminate]. split; [discriminate |].
        intros H. destruct (H O (Some c) (Some b) eq_refl eq_refl)
          as (c' & b' & Ec & Eb & _ & Hh).
        injection Ec as <-. contradiction. }
    destruct (IH (Some c)) as (IHiff & IHno). split; [| exact IHno].
    rewrite IHiff. split.
    + intros H i current before Hc Hb. destruct i as [| i].
      * cbn in Hc, Hb. injection Hc as <-. injection Hb as <-.
        exists c, b. repeat split; assumption.
      * exact (H i current before Hc Hb).
    + intros H i current before Hc Hb. exact (H (S i) current before Hc Hb).
Qed.

(** X28 - [validateChain] answers [true] or throws, never [false].  It
    answers [true] exactly on a chain that is not empty and in which every
    element after the first, and the element before it, is an instance of
    the Block model, names the hash of the element before it and carries the
    hash that [calculateHash] gives for it; on every other chain it throws.
    So a chain of two or more blocks parsed from JSON is refused, and of the
    first block of an accepted chain only the hash has been read. *)
Theorem validateChain_outcomes (dateToString : Z -> string)
        (chain : list (option BlockModel.t)) :
  (ValidationService.validateChain dateToString chain = Ok true
   <-> chain <> []
       /\ forall i current before,
           nth_error chain (S i) = Some current ->
           nth_error chain i = Some before ->
           exists c b,
             current = Some c /\ before = Some b
             /\ BlockModel.previousHash c = BlockModel.hash b
             /\ BlockModel.hash c = BlockModel.calculateHash dateToString c)
  /\ (ValidationService.validateChain dateToString chain <> Ok true ->
      exists msg, ValidationService.validateChain dateToString chain = Throw (Error msg))
  /\ ((2 <= List.length chain)%nat -> In None chain ->
      exists msg, ValidationService.validateChain dateToString chain = Throw (Error msg))
  /\ (forall first first' rest,
        chain = Some first :: rest ->
        BlockModel.hash first = BlockModel.hash first' ->
        ValidationService.validateChain dateToString (Some first' :: rest)
        = ValidationService.validateChain dateToString chain).
Proof.
  assert (Hthrows : forall previous rest,
             ValidationService.validateChain_from dateToString previous rest <> Ok true ->
             exists msg, ValidationService.validateChain_from dateToString previous rest
                         = Throw (Error msg)).
  { intros previous rest. revert previous.
    induction rest as [| current rest IH]; intros previous;
      cbn [ValidationService.validateChain_from].
    - intros H. exfalso. apply H. reflexivity.
    - destruct current as [c |]; [| intros _; eexists; reflexivity].
      destruct previous as [b |]; [| intros _; eexists; reflexivity].
      destruct (negb _); [intros _; eexists; reflexivity |].
      destruct (negb _); [intros _; eexists; reflexivity |].
      apply IH. }
  assert (Hiff : ValidationService.validateChain dateToString chain = Ok true
                 <-> chain <> []
                     /\ forall i current before,
                         nth_error chain (S i) = Some current ->
                         nth_error chain i = Some before ->
                         exists c b,
                           current = Some c /\ before = Some b
                           /\ BlockModel.previousHash c = BlockModel.hash b
                           /\ BlockModel.hash c = BlockModel.calculateHash dateToString c).
  { destruct chain as [| first rest]; cbn [ValidationService.validateChain].
    - split; [discriminate | intros (H & _); contradiction].
    - rewrite (proj1 (validateChain_from_spec dateToString rest first)).
      split; [intros H; split; [discriminate | exact H] | intros (_ & H); exact H]. }
  assert (Hno : ValidationService.validateChain dateToString chain <> Ok true ->
                exists msg, ValidationService.validateChain dateToString chain
                            = Throw (Error msg)).
  { destruct chain as [| first rest]; cbn [ValidationService.validateChain].
    - intros _. eexists. reflexivity.
    - apply Hthrows. }
  split; [exact Hiff |]. split; [exact Hno |]. split.
  - intros Hlen Hin. apply Hno. intros Hvalid. apply Hiff in Hvalid as (_ & Hall).
    apply In_nth_error in Hin as (n & Hn).
    destruct n as [| n].
    + destruct chain as [| first [| second rest]]; cbn [List.length] in Hlen; try lia.
      cbn in Hn. injection Hn as ->.
      destruct (Hall O second None eq_refl eq_refl) as (_ & b & _ & E & _). discriminate E.
    + destruct (nth_error chain n) as [before |] eqn:Hbefore.
      * destruct (Hall n None before Hn Hbefore) as (c & _ & E & _). discriminate E.
      * apply nth_error_None in Hbefore.
        assert (n < List.length chain)%nat; [| lia].
        assert (S n < List.length chain)%nat; [| lia].
        apply nth_error_Some. rewrite Hn. discriminate.
  - intros first first' rest -> Hhash. cbn [ValidationService.validateChain].
    destruct rest as [| current rest]; [reflexivity |].
    cbn [ValidationService.validateChain_from]. rewrite Hhash. reflexivity.
Qed.

(** ** The transaction pool *)

Lemma sameId_refl (a : option string) : TransactionPool.sameId a a = true.
Proof. destruct a; [apply String.eqb_refl | reflexivity]. Qed.

(** In the pool that [addOrUpdateTransaction] leaves, the first object with
    the id of the transaction is the transaction. *)
Lemma findIndex_place (heap : nat -> TransactionPool.obj) (transaction : nat) :
  forall pool,
    exists i,
      TransactionPool.findIndex heap (TransactionPool.id (heap transaction))
                                (TransactionPool.place heap pool transaction) = Some i
      /\ nth_error (TransactionPool.place heap pool transaction) i = Some transaction
      /\ TransactionPool.find heap (TransactionPool.id (heap transaction))
                              (TransactionPool.place heap pool transaction)
         = Some transaction
      /\ (List.length (TransactionPool.place heap pool transaction)
          <= S (List.length pool))%nat
      /\ List.length (TransactionPool.removeAt
                        i (TransactionPool.place heap pool transaction))
         = Nat.pred (List.length (TransactionPool.place heap pool transaction)).
Proof.
  set (wanted := TransactionPool.id (heap transaction)).
  induction pool as [| x rest IH]; unfold TransactionPool.place, TransactionPool.find.
  - cbn. fold wanted. rewrite sameId_refl. exists O. repeat split. lia.
  - cbn [TransactionPool.findIndex]. fold wanted.
    destruct (TransactionPool.sameId (TransactionPool.id (heap x)) wanted) eqn:Hx.
    + cbn. fold wanted. rewrite sameId_refl. exists O. repeat split. lia.
    + destruct IH as (i & Hi & Hnth & Hfind & Hlen & Hrem).
      unfold TransactionPool.place, TransactionPool.find in Hi, Hnth, Hfind, Hlen, Hrem.
      fold wanted in Hi, Hnth, Hfind, Hlen, Hrem.
      destruct (TransactionPool.findIndex heap wanted rest) as [j |] eqn:Hrest.
      * cbn [TransactionPool.setAt TransactionPool.findIndex List.find].
        rewrite Hx, Hi, Hfind. exists (S i).
        cbn [nth_error TransactionPool.removeAt List.length Nat.pred] in *.
        repeat split; try assumption; try lia.
        rewrite Hrem. destruct (TransactionPool.setAt j transaction rest);
          [destruct i; discriminate Hnth | reflexivity].
      * cbn [app TransactionPool.findIndex List.find].
        rewrite Hx, Hi, Hfind. exists (S i).
        cbn [nth_error TransactionPool.removeAt List.length Nat.pred] in *.
        repeat split; try assumption; try lia.
        rewrite Hrem. destruct (rest ++ [transaction])%list;
          [destruct i; discriminate Hnth | reflexivity].
Qed.

(** X29 - [addOrUpdateTransaction] takes the statuses "pending" and
    "confirmed" and no other: the status "available", which [updateStatus]
    of a transaction accepts, makes it throw, and a call that throws leaves
    the pool as it was.  After a transaction with the status "pending" has
    been taken, [findTransactionById] with the id of the transaction returns
    that very object; the pending pool has grown by at most one and the
    confirmed pool has not changed. *)
Theorem pool_add_outcomes (p : TransactionPool.t) (transaction : nat) :
  let status := Transaction.status (TransactionPool.tx (TransactionPool.heap p transaction)) in
  let r := TransactionPool.addOrUpdateTransaction p transaction in
  (fst r = Ok tt <-> status = "pending" \/ status = "confirmed")
  /\ (fst r <> Ok tt ->
      r = (Throw (Error ("Unsupported transaction status: " ++ status)), p))
  /\ (status = "available" ->
      fst (Transaction.updateStatus
             (TransactionPool.tx (TransactionPool.heap p transaction)) "available") = Ok tt
      /\ fst r = Throw (Error "Unsupported transaction status: available"))
  /\ (status = "pending" ->
      TransactionPool.findTransactionById
        (snd r) (TransactionPool.id (TransactionPool.heap p transaction))
      = Some transaction
      /\ (List.length (TransactionPool.pendingTransactions (snd r))
          <= S (List.length (TransactionPool.pendingTransactions p)))%nat
      /\ TransactionPool.confirmedTransactions (snd r)
         = TransactionPool.confirmedTransactions p).
Proof.
  cbv zeta. unfold TransactionPool.addOrUpdateTransaction.
  set (status := Transaction.status (TransactionPool.tx (TransactionPool.heap p transaction))).
  destruct (String.eqb_spec status "pending") as [Hp | Hp].
  - cbn [fst snd]. split; [split; [intros _; left; exact Hp | reflexivity] |].
    split; [intros H; exfalso; apply H; reflexivity |].
    split; [intros H; rewrite Hp in H; discriminate H |].
    intros _.
    destruct (findIndex_place (TransactionPool.heap p) transaction
                              (TransactionPool.pendingTransactions p))
      as (i & _ & _ & Hfind & Hlen & _).
    unfold TransactionPool.findTransactionById.
    cbn [TransactionPool.heap TransactionPool.pendingTransactions
         TransactionPool.confirmedTransactions].
    rewrite Hfind. repeat split. exact Hlen.
  - destruct (String.eqb_spec status "confirmed") as [Hc | Hc].
    + cbn [fst snd]. split; [split; [intros _; right; exact Hc | reflexivity] |].
      split; [intros H; exfalso; apply H; reflexivity |].
      split; [intros H; rewrite Hc in H; discriminate H | intros H; contradiction].
    + cbn [fst snd]. split; [split; [discriminate | intros [H | H]; contradiction] |].
      split; [reflexivity |].
      split; [| intros H; contradiction].
      intros Ha. rewrite Ha. split; reflexivity.
Qed.

(** X30 - A transaction that joined the pool as pending and is then
    confirmed by its id is the one that moves: it goes to the end of the
    confirmed pool, its status is "confirmed" for every holder of the
    object, it keeps its id, and the pending pool is one shorter. *)
Theorem add_then_confirm (p : TransactionPool.t) (transaction : nat) :
  Transaction.status (TransactionPool.tx (TransactionPool.heap p transaction)) = "pending" ->
  let p1 := snd (TransactionPool.addOrUpdateTransaction p transaction) in
  let p2 := TransactionPool.confirmTransaction
              p1 (TransactionPool.id (TransactionPool.heap p transaction)) in
  TransactionPool.confirmedTransactions p2
  = (TransactionPool.confirmedTransactions p ++ [transaction])%list
  /\ Transaction.status (TransactionPool.tx (TransactionPool.heap p2 transaction))
     = "confirmed"
  /\ TransactionPool.id (TransactionPool.heap p2 transaction)
     = TransactionPool.id (TransactionPool.heap p transaction)
  /\ S (List.length (TransactionPool.pendingTransactions p2))
     = List.length (TransactionPool.pendingTransactions p1)
  /\ List.length (TransactionPool.getAllTransactions p2)
     = List.length (TransactionPool.getAllTransactions p1).
Proof.
  intros Hstatus. cbv zeta.
  unfold TransactionPool.addOrUpdateTransaction. rewrite Hstatus.
  change ("pending" =? "pending")%string with true. cbv iota. cbn [snd].
  destruct (findIndex_place (TransactionPool.heap p) transaction
                            (TransactionPool.pendingTransactions p))
    as (i & Hi & Hnth & _ & _ & Hrem).
  unfold TransactionPool.confirmTransaction, TransactionPool.getAllTransactions.
  cbn [TransactionPool.heap TransactionPool.pendingTransactions
       TransactionPool.confirmedTransactions].
  rewrite Hi, Hnth.
  cbn [TransactionPool.heap TransactionPool.pendingTransactions
       TransactionPool.confirmedTransactions].
  assert (Hpos : (0 < List.length (TransactionPool.place
                                     (TransactionPool.heap p)
                                     (TransactionPool.pendingTransactions p) transaction))%nat).
  { apply Nat.lt_le_trans with (S i); [lia |]. apply Nat.le_succ_l.
    apply nth_error_Some. rewrite Hnth. discriminate. }
  unfold TransactionPool.updateStatus. rewrite Nat.eqb_refl.
  cbn [TransactionPool.tx TransactionPool.id].
  repeat split.
  - rewrite Hrem. lia.
  - rewrite !length_app, Hrem. cbn [List.length]. lia.
Qed.

Lemma add_then_confirm_witness :
  let heap := fun _ : nat => TransactionPool.Obj None Examples.ta in
  let p1 := snd (TransactionPool.addOrUpdateTransaction (TransactionPool.new heap) 7%nat) in
  let p2 := TransactionPool.confirmTransaction p1 None in
  TransactionPool.confirmedTransactions p2 = [7%nat]
  /\ Transaction.status (TransactionPool.tx (TransactionPool.heap p2 7%nat)) = "confirmed"
  /\ TransactionPool.id (TransactionPool.heap p2 7%nat) = None
  /\ S (List.length (TransactionPool.pendingTransactions p2))
     = List.length (TransactionPool.pendingTransactions p1)
  /\ List.length (TransactionPool.getAllTransactions p2)
     = List.length (TransactionPool.getAllTransactions p1).
Proof.
  apply (add_then_confirm
           (TransactionPool.new (fun _ : nat => TransactionPool.Obj None Examples.ta)) 7%nat).
  reflexivity.
Defined.
